(** * Span-tree logger: a shallow embedding of [src/lib/span-tree-logger.ts]

    The development follows the source file top to bottom: the
    [TraceSummary] and [AuditLog] records, the [SpanTree] service
    interface, the [withSpanLogging] combinator and the mock service of
    [mockSpanTreeLayer].  Effects are modelled by explicit state passing
    over a [World] that holds what the code can observe or change: the
    clock read by [Date.now()] and [new Date()], the console, the exported
    [auditLogs] array and the calls made to the tracer.  The clock is part
    of the world: reading it leaves it as it is, and an effect may move it.

    The span store and the eviction manager that stand behind the real
    service are not in the sources; module [Store] models them from the
    specification, and [StoreFacts] proves the capacity invariant there.

    The demo's services ([services/user.ts], [services/notification.ts])
    and the route handlers of [index.ts] are embedded over the same
    effects; [Effect.log] and [Effect.sleep] are taken from a [Runtime],
    of which the theorems only assume that it makes no tracer call and
    leaves the audit log alone. *)

From Stdlib Require Import String Ascii List ZArith Lia Bool.
From Stdlib Require Import DecimalString DecimalPos DecimalZ Permutation Sorted.
Import ListNotations.

Local Open Scope string_scope.
Local Open Scope Z_scope.

(* ====================================================================== *)
(** ** JavaScript values used by the module *)
(* ====================================================================== *)

(** [`${n}`] for an integral number: its decimal digits, with a leading
    minus sign below zero.  This is what JavaScript prints for the safe
    integers (up to [Number.MAX_SAFE_INTEGER] in magnitude), the clock
    readings among them; larger numbers are printed rounded or in exponent
    form, and statements about their text are limited to safe integers. *)
Definition numberToString (n : Z) : string :=
  NilZero.string_of_int (Z.to_int n).

(** Truthiness of a [string | null | undefined] value: [null] and
    [undefined] (here [None]) and the empty string are falsy. *)
Definition truthy (v : option string) : bool :=
  match v with
  | Some s => negb (s =? "")%string
  | None => false
  end.

(** [a ?? b] on a [string | undefined] left operand. *)
Definition nullish (a : option string) (b : string) : string :=
  match a with
  | Some s => s
  | None => b
  end.

(** [s.repeat(n)]. *)
Fixpoint repeatString (s : string) (n : nat) : string :=
  match n with
  | O => ""
  | S k => s ++ repeatString s k
  end.

(** The line feed of a [\n] escape. *)
Definition LF : string := String (ascii_of_nat 10) "".

(* ====================================================================== *)
(** ** SpanTree service definition *)
(* ====================================================================== *)

(** [{ traceUrlBase?: string }]. *)
Record Options := { traceUrlBase : option string }.

(** [options?.traceUrlBase] on an optional argument. *)
Definition optTraceUrlBase (options : option Options) : option string :=
  match options with
  | Some o => traceUrlBase o
  | None => None
  end.

Module TraceSummary.
Record t := mk {
  traceId : string;
  path : list string;
  formattedPath : string;
  depth : Z;
  spanCount : Z;
  traceUrl : option string
}.
End TraceSummary.

(** Element type of [getTraceSpans]. *)
Module SpanInfo.
Record t := mk {
  spanId : string;
  name : string;
  parentSpanId : option string
}.
End SpanInfo.

(** Element type of [getLeafSpans]. *)
Module LeafInfo.
Record t := mk {
  spanId : string;
  name : string
}.
End LeafInfo.

Module AuditLog.
Record t := mk {
  traceId : string;
  deepestPath : string;
  depth : Z;
  spanCount : Z;
  timestamp : Z;
  traceUrl : option string
}.
End AuditLog.

(** Values of span attributes: the numbers and strings given to
    [Effect.annotateCurrentSpan], and the stack trace that the library
    records on a span whose effect failed (its text is the runtime's). *)
Inductive AttrValue :=
| VNum (n : Z)
| VStr (s : string)
| VStackTrace.

(** Calls received by the tracer.  Spans are named by the order in which
    they were opened. *)
Inductive TracerCall :=
| SpanStart (span : nat) (name : string) (parent : option nat)
| SpanAttribute (span : nat) (key : string) (value : AttrValue)
| SpanEnd (span : nat).

Record World := {
  now : Z;                          (* milliseconds since the epoch *)
  console : list string;            (* console.log lines, oldest first *)
  auditLogs : list AuditLog.t;      (* the exported array, oldest first *)
  tracer : list TracerCall;         (* oldest first *)
  nextSpan : nat
}.

(** The [SpanTree] interface.  Every method is a synchronous call that may
    read the world it is called in. *)
Record SpanTree := {
  getCurrentTraceId : World -> option string;
  getCurrentSpanId : World -> option string;
  getDeepestPath : World -> string -> list string;
  getTraceSummary : World -> string -> option Options -> TraceSummary.t;
  getTraceSpans : World -> string -> list SpanInfo.t;
  getLeafSpans : World -> string -> list LeafInfo.t;
  isEnabled : World -> bool
}.

(* ====================================================================== *)
(** ** Effects *)
(* ====================================================================== *)

(** How an effect ends; [Failure] stands for every unsuccessful exit. *)
Inductive Exit (E A : Type) :=
| Success (a : A)
| Failure (e : E).
Arguments Success {E A} a.
Arguments Failure {E A} e.

(** An effect runs under a current span (if any) and transforms the world. *)
Definition Effect (E A : Type) : Type :=
  option nat -> World -> World * Exit E A.

Definition succeed {E A} (a : A) : Effect E A :=
  fun _ w => (w, Success a).

Definition bind {E A B} (m : Effect E A) (k : A -> Effect E B) : Effect E B :=
  fun ctx w =>
    match m ctx w with
    | (w', Success a) => k a ctx w'
    | (w', Failure e) => (w', Failure e)
    end.

Declare Scope effect_scope.
Delimit Scope effect_scope with effect.
Notation "x <- m ;; k" := (bind m (fun x => k))
  (at level 61, m at next level, right associativity) : effect_scope.
Notation "m ;; k" := (bind m (fun _ => k))
  (at level 61, right associativity) : effect_scope.

(** A synchronous statement of a generator body that reads the world. *)
Definition sync {E A} (f : World -> A) : Effect E A :=
  fun _ w => (w, Success (f w)).

Definition consoleLog {E} (line : string) : Effect E unit :=
  fun _ w =>
    ({| now := now w; console := console w ++ [line];
        auditLogs := auditLogs w; tracer := tracer w;
        nextSpan := nextSpan w |}, Success tt).

(** [auditLogs.push(entry)]. *)
Definition auditLogsPush {E} (entry : World -> AuditLog.t) : Effect E unit :=
  fun _ w =>
    ({| now := now w; console := console w;
        auditLogs := auditLogs w ++ [entry w]; tracer := tracer w;
        nextSpan := nextSpan w |}, Success tt).

Definition tracerCall (c : TracerCall) (w : World) : World :=
  {| now := now w; console := console w; auditLogs := auditLogs w;
     tracer := tracer w ++ [c]; nextSpan := nextSpan w |}.

(** [Effect.annotateCurrentSpan]: nothing happens without a current span. *)
Definition annotateCurrentSpan {E} (key : string) (value : AttrValue)
  : Effect E unit :=
  fun ctx w =>
    match ctx with
    | Some span => (tracerCall (SpanAttribute span key value) w, Success tt)
    | None => (w, Success tt)
    end.

(** The world once the tracer has opened a span under [ctx]. *)
Definition openSpan (name : string) (ctx : option nat) (w : World) : World :=
  {| now := now w; console := console w; auditLogs := auditLogs w;
     tracer := tracer w ++ [SpanStart (nextSpan w) name ctx];
     nextSpan := S (nextSpan w) |}.

(** The call that the library makes on a span before ending it when the
    effect under it failed: the attribute [code.stacktrace]. *)
Definition failureTrace {E A} (span : nat) (r : Exit E A) : list TracerCall :=
  match r with
  | Success _ => []
  | Failure _ => [SpanAttribute span "code.stacktrace" VStackTrace]
  end.

(** The end of a span opened by [Effect.withSpan], given the exit of the
    effect that ran under it. *)
Definition closeSpan {E A} (span : nat) (r : Exit E A) (w : World) : World :=
  {| now := now w; console := console w; auditLogs := auditLogs w;
     tracer := tracer w ++ failureTrace span r ++ [SpanEnd span];
     nextSpan := nextSpan w |}.

(** [Effect.withSpan(name)]: opens a child of the current span, runs the
    effect under it and ends the span whatever the outcome, a failure
    being recorded on the span first. *)
Definition withSpan {E A} (name : string) (eff : Effect E A) : Effect E A :=
  fun ctx w =>
    let span := nextSpan w in
    let (w1, r) := eff (Some span) (openSpan name ctx w) in
    (closeSpan span r w1, r).

(** [Effect.ensuring]: the finalizer cannot fail and runs after the effect,
    whether it succeeded or failed; the exit of the effect is kept. *)
Definition ensuring {E A} (eff : Effect E A) (fin : Effect Empty_set unit)
  : Effect E A :=
  fun ctx w =>
    let (w1, r) := eff ctx w in
    let (w2, _) := fin ctx w1 in
    (w2, r).

(** Runs [k] only when the condition holds ([if (c) { yield* k }]). *)
Definition when {E} (c : bool) (k : Effect E unit) : Effect E unit :=
  if c then k else succeed tt.

(* ====================================================================== *)
(** ** SpanTree logger combinator *)
(* ====================================================================== *)

Definition defaultTraceUrlBase : string := "https://ui.atrim.io".

(** The options that [withSpanLogging] works with: its default parameter
    value is the empty object. *)
Definition optionsOrEmpty (options : option Options) : Options :=
  match options with
  | Some o => o
  | None => {| traceUrlBase := None |}
  end.

(** The summary that the finalizer asks the service for, in world [w]. *)
Definition finalizerSummary (spanTree : SpanTree) (traceId : string)
    (options : Options) (w : World) : TraceSummary.t :=
  getTraceSummary spanTree w traceId
    (Some {| traceUrlBase :=
               Some (nullish (traceUrlBase options) defaultTraceUrlBase) |}).

Local Open Scope effect_scope.

(** The finalizer passed to [Effect.ensuring] inside [withSpanLogging]. *)
Definition finalizer (spanTree : SpanTree) (traceId operationName : string)
    (options : Options) : Effect Empty_set unit :=
  summary <- sync (finalizerSummary spanTree traceId options) ;;
  annotateCurrentSpan "span_tree.depth" (VNum (TraceSummary.depth summary)) ;;
  annotateCurrentSpan "span_tree.deepest_path"
    (VStr (TraceSummary.formattedPath summary)) ;;
  annotateCurrentSpan "span_tree.span_count"
    (VNum (TraceSummary.spanCount summary)) ;;
  when (truthy (TraceSummary.traceUrl summary))
    (annotateCurrentSpan "span_tree.trace_url"
       (VStr (nullish (TraceSummary.traceUrl summary) ""))) ;;
  consoleLog (LF ++ repeatString "=" 60) ;;
  consoleLog ("[" ++ operationName ++ "] Trace completed!") ;;
  consoleLog ("  Deepest path: " ++ TraceSummary.formattedPath summary) ;;
  consoleLog ("  Depth: " ++ numberToString (TraceSummary.depth summary)
                ++ " spans") ;;
  consoleLog ("  Total spans: "
                ++ numberToString (TraceSummary.spanCount summary)) ;;
  when (truthy (TraceSummary.traceUrl summary))
    (consoleLog ("  Trace URL: " ++ nullish (TraceSummary.traceUrl summary) "")) ;;
  consoleLog (repeatString "=" 60 ++ LF) ;;
  auditLogsPush (fun w =>
    {| AuditLog.traceId := traceId;
       AuditLog.deepestPath := TraceSummary.formattedPath summary;
       AuditLog.depth := TraceSummary.depth summary;
       AuditLog.spanCount := TraceSummary.spanCount summary;
       AuditLog.timestamp := now w;
       AuditLog.traceUrl := TraceSummary.traceUrl summary |}).

(** The branch taken when [!traceId] holds. *)
Definition noTraceFallback {E A} (eff : Effect E A) (operationName : string)
  : Effect E A :=
  consoleLog ("[" ++ operationName
                ++ "] No trace ID - SpanTree may not be initialized") ;;
  eff.

(** The generator body of [withSpanLogging], before [Effect.withSpan]. *)
Definition withSpanLoggingBody {E A} (spanTree : SpanTree) (eff : Effect E A)
    (operationName : string) (options : Options) : Effect E A :=
  traceId <- sync (getCurrentTraceId spanTree) ;;
  if truthy traceId
  then result <- ensuring eff
                   (finalizer spanTree (nullish traceId "") operationName
                      options) ;;
       succeed result
  else noTraceFallback eff operationName.

(** [withSpanLogging(effect, operationName, options = {})] run with the
    service [spanTree] in its context. *)
Definition withSpanLogging {E A} (spanTree : SpanTree) (eff : Effect E A)
    (operationName : string) (options : option Options) : Effect E A :=
  withSpan operationName
    (withSpanLoggingBody spanTree eff operationName (optionsOrEmpty options)).

Local Close Scope effect_scope.

(* ====================================================================== *)
(** ** Mock SpanTree implementation *)
(* ====================================================================== *)

(** The service object that [mockSpanTreeLayer] provides. *)
Definition mockSpanTreeLayer : SpanTree := {|
  getCurrentTraceId := fun w => Some ("trace-" ++ numberToString (now w));
  getCurrentSpanId := fun w => Some ("span-" ++ numberToString (now w));
  getDeepestPath := fun _ _ => ["root"; "child1"; "child2"];
  getTraceSummary := fun _ traceId options =>
    {| TraceSummary.traceId := traceId;
       TraceSummary.path := ["root"; "child1"; "child2"];
       TraceSummary.formattedPath := "root → child1 → child2";
       TraceSummary.depth := 3;
       TraceSummary.spanCount := 3;
       TraceSummary.traceUrl :=
         if truthy (optTraceUrlBase options)
         then Some (nullish (optTraceUrlBase options) ""
                      ++ "/traces/" ++ traceId)
         else None |};
  getTraceSpans := fun _ _ => [];
  getLeafSpans := fun _ _ => [];
  isEnabled := fun _ => true
|}.

(* ====================================================================== *)
(** ** Span store and eviction manager *)
(* ====================================================================== *)

Module Store.

(** Modelled from the spec: the span record of the data model (section 3).
    The sources contain the [SpanTree] interface and its mock only; the
    store behind the real service is not part of them.  Identifiers are
    opaque and ordered, here natural numbers. *)
Record Span := {
  spanId : nat;
  traceId : nat;
  parentSpanId : option nat;
  name : string;
  startedAt : Z;
  endedAt : option Z;
  attributes : list (string * AttrValue)
}.

(** Modelled from the spec: a trace, the spans sharing one [traceId] in
    start order, with the [lastActivityAt] stamp of section 4.3. *)
Record Trace := {
  id : nat;
  lastActivityAt : Z;
  spans : list Span
}.

(** Modelled from the spec: the configuration surface of section 6. *)
Record Config := {
  ttl : Z;
  maxSpans : N;
  maxTraces : N
}.

(** Modelled from the spec: the default TTL of 30 seconds and the default
    ceilings of 10,000 spans and 1,000 traces. *)
Definition defaultConfig : Config :=
  {| ttl := 30000; maxSpans := 10000; maxTraces := 1000 |}.

(** Modelled from the spec: the process-wide state of the Span Store, with
    the counters that allocate identifiers. *)
Record t := {
  traces : list Trace;
  nextSpanId : nat;
  nextTraceId : nat
}.

(** Modelled from the spec: the store before any span was started. *)
Definition empty : t :=
  {| traces := []; nextSpanId := O; nextTraceId := O |}.

(** Modelled from the spec: the total span count across all traces. *)
Definition spanTotal (ts : list Trace) : nat :=
  fold_right (fun tr n => (length (spans tr) + n)%nat) O ts.

(** Modelled from the spec: whether a trace with this identifier is
    stored. *)
Definition hasTrace (i : nat) (ts : list Trace) : bool :=
  existsb (fun tr => (id tr =? i)%nat) ts.

(** Modelled from the spec: [spansOf(traceId)], empty when unknown. *)
Definition spansOf (s : t) (i : nat) : list Span :=
  flat_map (fun tr => if (id tr =? i)%nat then spans tr else []) (traces s).

(** Modelled from the spec: both ceilings of section 4.3 are satisfied. *)
Definition withinCeilings (cfg : Config) (ts : list Trace) : Prop :=
  (N.of_nat (spanTotal ts) <= maxSpans cfg)%N /\
  (N.of_nat (length ts) <= maxTraces cfg)%N.

(** Modelled from the spec: the eviction order of section 4.3, ascending
    [lastActivityAt], the lower trace identifier first among equals. *)
Definition olderb (a b : Trace) : bool :=
  (lastActivityAt a <? lastActivityAt b)
  || ((lastActivityAt a =? lastActivityAt b) && (id a <=? id b)%nat).

(** Modelled from the spec: the least recently active trace, which
    eviction removes first, and the traces that remain. *)
Fixpoint extractOldest (ts : list Trace) : option (Trace * list Trace) :=
  match ts with
  | [] => None
  | tr :: rest =>
      match extractOldest rest with
      | None => Some (tr, [])
      | Some (m, rest') =>
          if olderb tr m then Some (tr, rest) else Some (m, tr :: rest')
      end
  end.

(** Modelled from the spec: capacity-based eviction.  While the pending
    mutation does not fit, the least recently active trace is removed as
    a whole.  The result lists the evicted traces in eviction order and
    the traces kept. *)
Fixpoint evictLoop (fuel : nat) (fits : list Trace -> bool)
    (ts : list Trace) : list Trace * list Trace :=
  match fuel with
  | O => ([], ts)
  | S fuel' =>
      if fits ts then ([], ts)
      else match extractOldest ts with
           | None => ([], ts)
           | Some (victim, rest) =>
               let (evicted, kept) := evictLoop fuel' fits rest in
               (victim :: evicted, kept)
           end
  end.

(** Modelled from the spec: eviction over the whole store; one round per
    stored trace is enough. *)
Definition evict (fits : list Trace -> bool) (ts : list Trace)
  : list Trace * list Trace :=
  evictLoop (length ts) fits ts.

(** Modelled from the spec: whether storing one more span in trace [i]
    exceeds neither ceiling; the trace counts as new when [i] is not
    stored. *)
Definition room (cfg : Config) (i : nat) (ts : list Trace) : bool :=
  (N.of_nat (spanTotal ts) + 1 <=? maxSpans cfg)%N
  && (N.of_nat (length ts) + (if hasTrace i ts then 0 else 1)
      <=? maxTraces cfg)%N.

(** Modelled from the spec: a span is registered under its trace, whose
    [lastActivityAt] is refreshed; a trace is created by its first
    span. *)
Fixpoint register (sp : Span) (clock : Z) (ts : list Trace) : list Trace :=
  match ts with
  | [] => [{| id := traceId sp; lastActivityAt := clock; spans := [sp] |}]
  | tr :: rest =>
      if (id tr =? traceId sp)%nat
      then {| id := id tr; lastActivityAt := clock;
              spans := spans tr ++ [sp] |} :: rest
      else tr :: register sp clock rest
  end.

(** Modelled from the spec: the one failure a caller can see. *)
Inductive StartError := CapacityExceeded.

(** Modelled from the spec: the record that [startSpan] allocates, open,
    linked to its parent or the root of a new trace. *)
Definition newSpan (s : t) (name : string)
    (parentContext : option (nat * nat)) (clock : Z) : Span :=
  {| spanId := nextSpanId s;
     traceId := match parentContext with
                | Some (tr, _) => tr
                | None => nextTraceId s
                end;
     parentSpanId := option_map snd parentContext;
     name := name;
     startedAt := clock;
     endedAt := None;
     attributes := [] |}.

(** Modelled from the spec: [startSpan(name, parentContext)] of section
    4.2 at time [clock].  Eviction runs first, then the span is stored;
    [CapacityExceeded] is returned when no eviction can make room. *)
Definition startSpan (cfg : Config) (name : string)
    (parentContext : option (nat * nat)) (clock : Z) (s : t)
  : t * (Span + StartError) :=
  let sp := newSpan s name parentContext clock in
  let kept := snd (evict (room cfg (traceId sp)) (traces s)) in
  if room cfg (traceId sp) kept
  then ({| traces := register sp clock kept;
           nextSpanId := S (nextSpanId s);
           nextTraceId := match parentContext with
                          | Some _ => nextTraceId s
                          | None => S (nextTraceId s)
                          end |}, inl sp)
  else ({| traces := kept; nextSpanId := nextSpanId s;
           nextTraceId := nextTraceId s |}, inr CapacityExceeded).

(** Modelled from the spec: a span is open while [endedAt] is unset. *)
Definition isOpen (sp : Span) : bool :=
  match endedAt sp with
  | None => true
  | Some _ => false
  end.

(** Modelled from the spec: the span that a write to [sid] can reach,
    known and still open. *)
Definition targets (sid : nat) (sp : Span) : bool :=
  (spanId sp =? sid)%nat && isOpen sp.

(** Modelled from the spec: a write to the open span [sid] changes that
    span and refreshes the stamp of its trace; a trace without such a
    span is left as it is. *)
Definition touchSpan (sid : nat) (clock : Z) (f : Span -> Span)
    (tr : Trace) : Trace :=
  if existsb (targets sid) (spans tr)
  then {| id := id tr; lastActivityAt := clock;
          spans := map (fun sp => if targets sid sp then f sp else sp)
                       (spans tr) |}
  else tr.

(** Modelled from the spec: the store after a write to span [sid]. *)
Definition updateSpan (sid : nat) (clock : Z) (f : Span -> Span) (s : t)
  : t :=
  {| traces := map (touchSpan sid clock f) (traces s);
     nextSpanId := nextSpanId s; nextTraceId := nextTraceId s |}.

(** Modelled from the spec: [endSpan(spanId)], a no-op on an unknown or
    closed span. *)
Definition endSpan (sid : nat) (clock : Z) (s : t) : t :=
  updateSpan sid clock
    (fun sp => {| spanId := spanId sp; traceId := traceId sp;
                  parentSpanId := parentSpanId sp; name := name sp;
                  startedAt := startedAt sp; endedAt := Some clock;
                  attributes := attributes sp |}) s.

(** Modelled from the spec: an attribute is attached, or overwritten when
    its key is already there. *)
Fixpoint setAttribute (key : string) (value : AttrValue)
    (attrs : list (string * AttrValue)) : list (string * AttrValue) :=
  match attrs with
  | [] => [(key, value)]
  | (k, v) :: rest =>
      if (k =? key)%string then (key, value) :: rest
      else (k, v) :: setAttribute key value rest
  end.

(** Modelled from the spec: [annotate(spanId, key, value)], dropped on an
    unknown or closed span. *)
Definition annotate (sid : nat) (key : string) (value : AttrValue)
    (clock : Z) (s : t) : t :=
  updateSpan sid clock
    (fun sp => {| spanId := spanId sp; traceId := traceId sp;
                  parentSpanId := parentSpanId sp; name := name sp;
                  startedAt := startedAt sp; endedAt := endedAt sp;
                  attributes := setAttribute key value (attributes sp) |}) s.

(** Modelled from the spec: the time-based sweep, which removes every
    trace idle for longer than the TTL. *)
Definition sweep (cfg : Config) (clock : Z) (s : t) : t :=
  {| traces := filter (fun tr => negb (ttl cfg <? clock - lastActivityAt tr))
                      (traces s);
     nextSpanId := nextSpanId s; nextTraceId := nextTraceId s |}.

(** Modelled from the spec: the mutations of the store, the three calls
    of section 4.2 and the sweep of section 4.3. *)
Inductive step (cfg : Config) (s : t) : t -> Prop :=
| step_startSpan name parentContext clock :
    step cfg s (fst (startSpan cfg name parentContext clock s))
| step_endSpan sid clock :
    step cfg s (endSpan sid clock s)
| step_annotate sid key value clock :
    step cfg s (annotate sid key value clock s)
| step_sweep clock :
    step cfg s (sweep cfg clock s).

(** Modelled from the spec: the stores that the mutations produce from
    the empty one. *)
Inductive reachable (cfg : Config) : t -> Prop :=
| reachable_empty : reachable cfg empty
| reachable_step s s' :
    reachable cfg s -> step cfg s s' -> reachable cfg s'.

(** Modelled from the spec: a list of traces in ascending eviction
    order. *)
Fixpoint ascending (ts : list Trace) : Prop :=
  match ts with
  | [] => True
  | a :: rest => Forall (fun b => olderb a b = true) rest /\ ascending rest
  end.

End Store.

(* ====================================================================== *)
(** ** Auxiliary definitions and sample data *)
(* ====================================================================== *)

(** [names.join(sep)]. *)
Fixpoint joinWith (sep : string) (names : list string) : string :=
  match names with
  | [] => ""
  | [x] => x
  | x :: rest => x ++ sep ++ joinWith sep rest
  end.

(** The directional separator: a space, U+2192 in UTF-8, a space. *)
Definition arrowSeparator : string :=
  String " " (String (ascii_of_nat 226) (String (ascii_of_nat 134)
    (String (ascii_of_nat 146) (String " " "")))).

Definition world0 : World :=
  {| now := 0; console := []; auditLogs := []; tracer := []; nextSpan := O |}.

(** A store with room for three spans in two traces, filled by three
    [startSpan] calls: a root and its child, then the root of a second
    trace. *)
Definition smallConfig : Store.Config :=
  {| Store.ttl := 30000; Store.maxSpans := 3; Store.maxTraces := 2 |}.

Definition store1 : Store.t :=
  fst (Store.startSpan smallConfig "root" None 10 Store.empty).

Definition store2 : Store.t :=
  fst (Store.startSpan smallConfig "a" (Some (O, O)) 20 store1).

Definition store3 : Store.t :=
  fst (Store.startSpan smallConfig "other" None 30 store2).

(** An effect that logs one line and fails. *)
Definition failingEffect : Effect string unit :=
  fun _ w =>
    ({| now := now w + 5; console := console w ++ ["working"];
        auditLogs := auditLogs w; tracer := tracer w;
        nextSpan := nextSpan w |}, Failure "boom").

(* ====================================================================== *)
(** ** More of the Effect library *)
(* ====================================================================== *)

(** [Effect.fail]. *)
Definition fail {E A} (e : E) : Effect E A :=
  fun _ w => (w, Failure e).

(** The [Either] that [Effect.either] produces: [Left] holds the failure. *)
Inductive Either (E A : Type) :=
| Left (left : E)
| Right (right : A).
Arguments Left {E A} left.
Arguments Right {E A} right.

(** [Effect.either]: the failure becomes a value; the effect cannot fail
    any more. *)
Definition either {E E' A} (eff : Effect E A) : Effect E' (Either E A) :=
  fun ctx w =>
    match eff ctx w with
    | (w', Success a) => (w', Success (Right a))
    | (w', Failure e) => (w', Success (Left e))
    end.

(** Plain data: the object literals of the services and the response
    bodies. *)
#[warnings="-register-all"]
Inductive Json :=
| JBool (b : bool)
| JNum (n : Z)
| JStr (s : string)
| JObj (fields : list (string * Json)).

(* ====================================================================== *)
(** ** User service *)
(* ====================================================================== *)

Inductive UserError :=
| InvalidUserIdError (userId : string)
| UserNotFoundError (userId : string).

(** What the runtime provides: [Effect.log], [Effect.sleep] with a duration
    in milliseconds, and the conversion [String(error)] of a tagged error.
    Their output formats and timing are the library's and are left open. *)
Record Runtime := {
  effectLog : forall E : Type, string -> Effect E unit;
  effectSleep : forall E : Type, Z -> Effect E unit;
  errorString : UserError -> string
}.

(** An effect that succeeds, makes no call to the tracer and leaves the
    audit log alone. *)
Definition quiet {E} (m : Effect E unit) : Prop :=
  forall ctx w,
    snd (m ctx w) = Success tt
    /\ tracer (fst (m ctx w)) = tracer w
    /\ nextSpan (fst (m ctx w)) = nextSpan w
    /\ auditLogs (fst (m ctx w)) = auditLogs w.

(** Logging and sleeping are quiet. *)
Definition quietRuntime (rt : Runtime) : Prop :=
  forall E : Type,
    (forall message, quiet (effectLog rt E message))
    /\ (forall millis, quiet (effectSleep rt E millis)).

Module User.
Record t := mk {
  id : string;
  name : string;
  email : string
}.
End User.

Definition mockUsers : list (string * User.t) :=
  [("1", {| User.id := "1"; User.name := "Alice";
            User.email := "alice@example.com" |});
   ("2", {| User.id := "2"; User.name := "Bob";
            User.email := "bob@example.com" |});
   ("3", {| User.id := "3"; User.name := "Charlie";
            User.email := "charlie@example.com" |})].

(** The property names that every object literal inherits from
    [Object.prototype]. *)
Definition objectPrototypeKeys : list string :=
  ["constructor"; "hasOwnProperty"; "isPrototypeOf"; "propertyIsEnumerable";
   "toLocaleString"; "toString"; "valueOf"; "__proto__";
   "__defineGetter__"; "__defineSetter__"; "__lookupGetter__";
   "__lookupSetter__"].

(** What [mockUsers[key]] evaluates to when it is not [undefined]: a user
    of the table, or a member inherited from [Object.prototype]. *)
Inductive Stored :=
| OwnUser (user : User.t)
| PrototypeMember (key : string).

(** [mockUsers[key]]; [None] is [undefined]. *)
Definition mockUsersGet (key : string) : option Stored :=
  match find (fun entry => (fst entry =? key)%string) mockUsers with
  | Some (_, user) => Some (OwnUser user)
  | None =>
      if existsb (String.eqb key) objectPrototypeKeys
      then Some (PrototypeMember key)
      else None
  end.

(** The [name] property of an inherited member: the built-in functions are
    named after their key, [constructor] is [Object], and [__proto__] is
    the prototype object, which has no name. *)
Definition memberName (key : string) : string :=
  if (key =? "constructor")%string then "Object"
  else if (key =? "__proto__")%string then "undefined"
  else key.

(** [\d]: an ASCII digit. *)
Definition isDigit (c : ascii) : bool :=
  (48 <=? nat_of_ascii c)%nat && (nat_of_ascii c <=? 57)%nat.

Fixpoint allDigits (s : string) : bool :=
  match s with
  | EmptyString => true
  | String c rest => isDigit c && allDigits rest
  end.

(** [userId.match(/^\d+$/)] finds a match. *)
Definition matchesDigits (userId : string) : bool :=
  negb (userId =? "")%string && allDigits userId.

Local Open Scope effect_scope.

(** Level 6: validate user ID format. *)
Definition validateUserId (rt : Runtime) (userId : string)
  : Effect UserError string :=
  withSpan "validate"
    (effectLog rt _ ("Validating user ID: " ++ userId) ;;
     effectSleep rt _ 10 ;;
     if negb (matchesDigits userId)
     then fail (InvalidUserIdError userId)
     else succeed userId).

(** Level 5: check user permissions. *)
Definition checkPermissions (rt : Runtime) (userId : string)
  : Effect UserError bool :=
  withSpan "checkPermissions"
    (effectLog rt _ ("Checking permissions for user: " ++ userId) ;;
     effectSleep rt _ 15 ;;
     succeed true).

(** Level 4: query database for user. *)
Definition queryDatabase (rt : Runtime) (userId : string)
  : Effect UserError Stored :=
  withSpan "db.query"
    (effectLog rt _ ("Querying database for user: " ++ userId) ;;
     annotateCurrentSpan "db.system" (VStr "postgresql") ;;
     annotateCurrentSpan "db.statement"
       (VStr "SELECT * FROM users WHERE id = $1") ;;
     effectSleep rt _ 50 ;;
     match mockUsersGet userId with
     | None => fail (UserNotFoundError userId)
     | Some user => succeed user
     end).

(** [{ ...user, displayName: `${user.name} <${user.email}>` }].  A member
    of [Object.prototype] has no enumerable property to spread and no
    [email]. *)
Definition transformed (user : Stored) : Json :=
  match user with
  | OwnUser u =>
      JObj [("id", JStr (User.id u)); ("name", JStr (User.name u));
            ("email", JStr (User.email u));
            ("displayName",
             JStr (User.name u ++ " <" ++ User.email u ++ ">"))]
  | PrototypeMember key =>
      JObj [("displayName", JStr (memberName key ++ " <undefined>"))]
  end.

(** Level 3: transform user data for response. *)
Definition transformUser {E} (rt : Runtime) (user : Stored) : Effect E Json :=
  withSpan "transform"
    (effectLog rt _ "Transforming user data" ;;
     effectSleep rt _ 5 ;;
     succeed (transformed user)).

(** Level 2: fetch user with nested operations. *)
Definition fetchUser (rt : Runtime) (userId : string)
  : Effect UserError Json :=
  withSpan "fetchUser"
    (effectLog rt _ ("Starting user fetch for: " ++ userId) ;;
     validatedId <- validateUserId rt userId ;;
     checkPermissions rt validatedId ;;
     user <- queryDatabase rt validatedId ;;
     transformedUser <- transformUser rt user ;;
     succeed transformedUser).

(* ====================================================================== *)
(** ** Notification service *)
(* ====================================================================== *)

(** Level 10: send email (deepest level). *)
Definition sendEmail {E} (rt : Runtime) : Effect E Json :=
  withSpan "sendEmail"
    (effectLog rt _ "Sending notification email" ;;
     annotateCurrentSpan "email.provider" (VStr "sendgrid") ;;
     effectSleep rt _ 3 ;;
     succeed (JObj [("sent", JBool true)])).

(** Level 9: format email content. *)
Definition formatEmail {E} (rt : Runtime) : Effect E Json :=
  withSpan "formatEmail"
    (effectLog rt _ "Formatting email content" ;;
     effectSleep rt _ 2 ;;
     sendEmail rt ;;
     succeed (JObj [("formatted", JBool true)])).

(** Level 8: load email template. *)
Definition loadTemplate {E} (rt : Runtime) : Effect E Json :=
  withSpan "loadTemplate"
    (effectLog rt _ "Loading email template" ;;
     annotateCurrentSpan "template.name" (VStr "user-notification") ;;
     effectSleep rt _ 5 ;;
     formatEmail rt ;;
     succeed (JObj [("template", JStr "user-notification")])).

(** Level 7: fetch recipient list. *)
Definition fetchRecipients {E} (rt : Runtime) : Effect E Json :=
  withSpan "fetchRecipients"
    (effectLog rt _ "Fetching notification recipients" ;;
     effectSleep rt _ 10 ;;
     loadTemplate rt ;;
     succeed (JObj [("recipientCount", JNum 5)])).

(** Level 6: validate recipients. *)
Definition validateRecipients {E} (rt : Runtime) : Effect E Json :=
  withSpan "validateRecipients"
    (effectLog rt _ "Validating recipient list" ;;
     effectSleep rt _ 3 ;;
     fetchRecipients rt ;;
     succeed (JObj [("valid", JBool true)])).

(** Level 5: prepare notification payload. *)
Definition prepareNotification {E} (rt : Runtime) : Effect E Json :=
  withSpan "prepareNotification"
    (effectLog rt _ "Preparing notification payload" ;;
     effectSleep rt _ 2 ;;
     validateRecipients rt ;;
     succeed (JObj [("prepared", JBool true)])).

(** Level 4: queue notification for processing. *)
Definition queueNotification {E} (rt : Runtime) : Effect E Json :=
  withSpan "queueNotification"
    (effectLog rt _ "Queueing notification" ;;
     annotateCurrentSpan "queue.name" (VStr "notifications") ;;
     effectSleep rt _ 5 ;;
     prepareNotification rt ;;
     succeed (JObj [("queued", JBool true)])).

(** Level 3: notification pipeline orchestration. *)
Definition notificationPipeline {E} (rt : Runtime) : Effect E Json :=
  withSpan "notificationPipeline"
    (effectLog rt _ "Starting notification pipeline" ;;
     effectSleep rt _ 2 ;;
     queueNotification rt ;;
     succeed (JObj [("pipelineComplete", JBool true)])).

(** Level 2: top-level notifications service. *)
Definition sendNotifications {E} (rt : Runtime) : Effect E Json :=
  withSpan "notifications"
    (effectLog rt _ "Initiating notification service" ;;
     effectSleep rt _ 1 ;;
     notificationPipeline rt ;;
     succeed (JObj [("sent", JBool true); ("recipientCount", JNum 5);
                    ("template", JStr "user-notification")])).

(* ====================================================================== *)
(** ** HTTP route handlers *)
(* ====================================================================== *)

(** What [HttpServerResponse.json(body, { status })] describes; the body of
    the audit route is the audit log itself, serialised when the handler
    runs. *)
Inductive Body :=
| JsonBody (json : Json)
| AuditLogsBody (logs : list AuditLog.t).

Record Response := {
  status : Z;
  body : Body
}.

(** [HttpServerResponse.json] on plain data, with status 200 by default. *)
Definition jsonResponse {E} (status : Z) (json : Json) : Effect E Response :=
  succeed {| status := status; body := JsonBody json |}.

(** The handler of [GET /]. *)
Definition welcomeRoute {E} : Effect E Response :=
  jsonResponse 200
    (JObj [("message", JStr "Effect-TS SpanTree Demo");
           ("description",
            JStr "Demonstrates Effect-TS/effect#5926 - accessing span tree from Effect.ensuring()");
           ("endpoints",
            JObj [("/api/users/:id",
                   JStr "Simple 6-level nested span example");
                  ("/api/complex/:id",
                   JStr "Complex 10+ level notification pipeline");
                  ("/api/audit-logs",
                   JStr "View captured trace summaries")])]).

(** The handler of [GET /health]; its body was built when the module was
    loaded, [loadedAt] being the ISO time of that moment. *)
Definition healthRoute {E} (loadedAt : string) : Effect E Response :=
  jsonResponse 200
    (JObj [("status", JStr "ok"); ("timestamp", JStr loadedAt)]).

(** The handler of [GET /api/users/:id]. *)
Definition userRoute (rt : Runtime) : Effect Empty_set Response :=
  let id := "1" in
  result <- either (withSpan "api.getUser" (fetchUser rt id)) ;;
  match result with
  | Right user => jsonResponse 200 user
  | Left error =>
      jsonResponse 404 (JObj [("error", JStr (errorString rt error))])
  end.

(** The effect [complexOperation] built by the handler of
    [GET /api/complex/:id]. *)
Definition complexOperation (rt : Runtime) (id : string)
  : Effect UserError Json :=
  user <- fetchUser rt id ;;
  withSpan "enrichUser"
    (effectLog rt _ "Enriching user data" ;;
     withSpan "fetchPreferences"
       (effectLog rt _ "Fetching preferences")) ;;
  withSpan "analytics"
    (effectLog rt _ "Starting analytics" ;;
     withSpan "calculateMetrics"
       (effectLog rt _ "Calculating metrics" ;;
        withSpan "aggregateData"
          (effectLog rt _ "Aggregating data" ;;
           withSpan "computeStats"
             (effectLog rt _ "Computing statistics" ;;
              withSpan "finalizeMetrics"
                (effectLog rt _ "Finalizing metrics"))))) ;;
  withSpan "cacheCheck" (effectLog rt _ "Checking cache") ;;
  sendNotifications rt ;;
  succeed user.

(** The handler of [GET /api/complex/:id]. *)
Definition complexRoute (rt : Runtime) : Effect Empty_set Response :=
  let id := "1" in
  result <- either (withSpan "api.complexOperation" (complexOperation rt id)) ;;
  match result with
  | Right user =>
      jsonResponse 200
        (JObj [("user", user);
               ("message",
                JStr "Complex operation completed - check console for span tree output")])
  | Left error =>
      jsonResponse 500 (JObj [("error", JStr (errorString rt error))])
  end.

(** The handler of [GET /api/audit-logs]: the array as it is when the
    request is served. *)
Definition auditRoute {E} : Effect E Response :=
  fun _ w => (w, Success {| status := 200; body := AuditLogsBody (auditLogs w) |}).

(** The routes of the router. *)
Inductive Route :=
| RouteWelcome
| RouteHealth
| RouteUser
| RouteComplex
| RouteAudit.

Definition handle (rt : Runtime) (loadedAt : string) (route : Route)
  : Effect Empty_set Response :=
  match route with
  | RouteWelcome => welcomeRoute
  | RouteHealth => healthRoute loadedAt
  | RouteUser => userRoute rt
  | RouteComplex => complexRoute rt
  | RouteAudit => auditRoute
  end.

(** Serving requests one after the other, each with the span (if any)
    under which the server runs its handler; the responses come oldest
    first. *)
Fixpoint serve (rt : Runtime) (loadedAt : string)
    (requests : list (option nat * Route)) (w : World)
  : World * list Response :=
  match requests with
  | [] => (w, [])
  | (ctx, route) :: rest =>
      match handle rt loadedAt route ctx w with
      | (w', Success response) =>
          let (w'', responses) := serve rt loadedAt rest w' in
          (w'', response :: responses)
      | (w', Failure e) => match e with end
      end
  end.

Local Close Scope effect_scope.

(* ====================================================================== *)
(** ** Reading the tracer's calls *)
(* ====================================================================== *)

(** The calls [calls] are what a single task makes under the current span
    [outer] with the spans [stack] open (innermost first): every span
    starts as a child of the innermost open span, attributes go to the
    innermost open span, spans end innermost first, and none stays open. *)
Fixpoint nested (stack : list nat) (outer : option nat)
    (calls : list TracerCall) : Prop :=
  match calls with
  | [] => stack = []
  | SpanStart span _ parent :: rest =>
      parent = match stack with
               | top :: _ => Some top
               | [] => outer
               end
      /\ nested (span :: stack) outer rest
  | SpanAttribute span _ _ :: rest =>
      match stack with
      | top :: _ => span = top
      | [] => False
      end
      /\ nested stack outer rest
  | SpanEnd span :: rest =>
      match stack with
      | top :: below => span = top /\ nested below outer rest
      | [] => False
      end
  end.

(** The names of the spans opened by the calls, in opening order. *)
Definition spanNames (calls : list TracerCall) : list string :=
  flat_map (fun c => match c with
                     | SpanStart _ name _ => [name]
                     | _ => []
                     end) calls.

(** The longest chain of open spans that the calls reach, outermost first;
    the first one reached wins.  [open] and [best] are innermost first. *)
Fixpoint deepestChain (open best : list string) (calls : list TracerCall)
  : list string :=
  match calls with
  | [] => rev best
  | SpanStart _ name _ :: rest =>
      deepestChain (name :: open)
        (if (length best <? length (name :: open))%nat
         then name :: open else best) rest
  | SpanEnd _ :: rest => deepestChain (tl open) best rest
  | SpanAttribute _ _ _ :: rest => deepestChain open best rest
  end.

(** Running [m] under [ctx] from a world whose next span is [n] makes
    exactly the tracer calls [calls], leaves [n'] as the next span, ends
    with [r] and does not touch the audit log. *)
Definition emits {E A} (m : Effect E A) (ctx : option nat) (n : nat)
    (calls : list TracerCall) (n' : nat) (r : Exit E A) : Prop :=
  forall w,
    nextSpan w = n ->
    snd (m ctx w) = r
    /\ tracer (fst (m ctx w)) = (tracer w ++ calls)%list
    /\ nextSpan (fst (m ctx w)) = n'
    /\ auditLogs (fst (m ctx w)) = auditLogs w.

(** The integers that a JavaScript number holds exactly and prints digit
    by digit: up to [Number.MAX_SAFE_INTEGER] in magnitude. *)
Definition safeInteger (n : Z) : Prop :=
  Z.abs n <= 9007199254740991.


(** A runtime that prints log messages on the console and sleeps by moving
    the clock. *)
Definition consoleRuntime : Runtime := {|
  effectLog := fun E message => consoleLog message;
  effectSleep := fun E millis => fun _ w =>
    ({| now := now w + millis; console := console w;
        auditLogs := auditLogs w; tracer := tracer w;
        nextSpan := nextSpan w |}, Success tt);
  errorString := fun e =>
    match e with
    | InvalidUserIdError _ => "InvalidUserIdError"
    | UserNotFoundError _ => "UserNotFoundError"
    end
|}.

(** A service that knows of no current trace. *)
Definition noTraceSpanTree : SpanTree := {|
  getCurrentTraceId := fun _ => None;
  getCurrentSpanId := fun _ => None;
  getDeepestPath := fun _ _ => [];
  getTraceSummary := fun _ traceId _ =>
    {| TraceSummary.traceId := traceId;
       TraceSummary.path := [];
       TraceSummary.formattedPath := "";
       TraceSummary.depth := 0;
       TraceSummary.spanCount := 0;
       TraceSummary.traceUrl := None |};
  getTraceSpans := fun _ _ => [];
  getLeafSpans := fun _ _ => [];
  isEnabled := fun _ => false
|}.

Example mock_summary_example :
  getTraceSummary mockSpanTreeLayer world0 "t1"
    (Some {| traceUrlBase := Some "https://ui.atrim.io" |})
  = {| TraceSummary.traceId := "t1";
       TraceSummary.path := ["root"; "child1"; "child2"];
       TraceSummary.formattedPath := "root → child1 → child2";
       TraceSummary.depth := 3;
       TraceSummary.spanCount := 3;
       TraceSummary.traceUrl := Some "https://ui.atrim.io/traces/t1" |}.
Proof. reflexivity. Qed.

Example mock_trace_id_example :
  getCurrentTraceId mockSpanTreeLayer
    {| now := 1700000000123; console := []; auditLogs := []; tracer := [];
       nextSpan := O |}
  = Some "trace-1700000000123".
Proof. reflexivity. Qed.

Example arrow_separator_bytes : arrowSeparator = " → ".
Proof. reflexivity. Qed.

(* ====================================================================== *)
(** ** The mock service *)
(* ====================================================================== *)

Section MockQueries.

Variables (w : World) (traceId : string) (options : option Options).

Let summary := getTraceSummary mockSpanTreeLayer w traceId options.

Lemma mock_deepest_path :
  getDeepestPath mockSpanTreeLayer w traceId = ["root"; "child1"; "child2"].
Proof. reflexivity. Qed.

Lemma mock_structure_empty :
  getTraceSpans mockSpanTreeLayer w traceId = []
  /\ getLeafSpans mockSpanTreeLayer w traceId = [].
Proof. split; reflexivity. Qed.

Lemma mock_summary_counts :
  TraceSummary.depth summary = 3 /\ TraceSummary.spanCount summary = 3.
Proof. split; reflexivity. Qed.

Lemma mock_summary_path :
  TraceSummary.path summary = ["root"; "child1"; "child2"].
Proof. reflexivity. Qed.

End MockQueries.

(** C1, as the spec words it, fails on the mock: it keeps no spans for the
    trace ["t1"], yet reports a deepest path of three names and a summary
    of depth 3 with 3 spans. *)
Lemma absent_trace_counterexample :
  getTraceSpans mockSpanTreeLayer world0 "t1" = []
  /\ getDeepestPath mockSpanTreeLayer world0 "t1" <> []
  /\ TraceSummary.depth (getTraceSummary mockSpanTreeLayer world0 "t1" None) <> 0
  /\ TraceSummary.spanCount
       (getTraceSummary mockSpanTreeLayer world0 "t1" None) <> 0.
Proof. repeat split; discriminate. Qed.

(** C1 (amended): the mock keeps no store, so every trace is absent from
    it.  For every trace identifier each query returns a value (none of
    them can raise): [getTraceSpans] and [getLeafSpans] return the empty
    sequence, [getDeepestPath] returns the three names root, child1,
    child2, and [getTraceSummary] reports that path with depth 3 and span
    count 3. *)
Theorem absent_trace_queries :
  forall (w : World) (traceId : string) (options : option Options),
    getTraceSpans mockSpanTreeLayer w traceId = []
    /\ getLeafSpans mockSpanTreeLayer w traceId = []
    /\ getDeepestPath mockSpanTreeLayer w traceId = ["root"; "child1"; "child2"]
    /\ TraceSummary.path (getTraceSummary mockSpanTreeLayer w traceId options)
       = ["root"; "child1"; "child2"]
    /\ TraceSummary.depth (getTraceSummary mockSpanTreeLayer w traceId options)
       = 3
    /\ TraceSummary.spanCount
         (getTraceSummary mockSpanTreeLayer w traceId options) = 3.
Proof.
  intros w traceId options.
  destruct (mock_structure_empty w traceId) as [Hspans Hleaves].
  destruct (mock_summary_counts w traceId options) as [Hdepth Hcount].
  repeat split; auto using mock_deepest_path, mock_summary_path.
Qed.

(** C3: for every trace identifier and any options, the length of
    [getDeepestPath(traceId)] equals the [depth] of
    [getTraceSummary(traceId, options)], which equals the length of the
    summary's [path]. *)
Theorem deepest_path_length_is_depth :
  forall (w w' : World) (traceId : string) (options : option Options),
    let summary := getTraceSummary mockSpanTreeLayer w' traceId options in
    Z.of_nat (length (getDeepestPath mockSpanTreeLayer w traceId))
    = TraceSummary.depth summary
    /\ TraceSummary.depth summary
       = Z.of_nat (length (TraceSummary.path summary)).
Proof.
  intros w w' traceId options summary.
  subst summary.
  rewrite mock_deepest_path, mock_summary_path.
  destruct (mock_summary_counts w' traceId options) as [-> _].
  split; reflexivity.
Qed.

(** C4, as the spec words it, fails for a supplied base that is the empty
    string: the summary carries no URL, not ["/traces/t1"]. *)
Lemma trace_url_counterexample :
  TraceSummary.traceUrl
    (getTraceSummary mockSpanTreeLayer world0 "t1"
       (Some {| traceUrlBase := Some "" |}))
  <> Some ("" ++ "/traces/" ++ "t1").
Proof. discriminate. Qed.

(** C4 (amended): for every trace identifier, a supplied base that is not
    the empty string gives [traceUrl = traceUrlBase + "/traces/" + traceId];
    with no base supplied (no options, or options without a base) the
    [traceUrl] is null, and so it is for the empty base, which the
    conditional treats as not supplied. *)
Theorem trace_url_of_base :
  forall (w : World) (traceId base : string),
    TraceSummary.traceUrl
      (getTraceSummary mockSpanTreeLayer w traceId
         (Some {| traceUrlBase := Some base |}))
    = (if (base =? "")%string then None
       else Some (base ++ "/traces/" ++ traceId))
    /\ TraceSummary.traceUrl
         (getTraceSummary mockSpanTreeLayer w traceId
            (Some {| traceUrlBase := None |})) = None
    /\ TraceSummary.traceUrl
         (getTraceSummary mockSpanTreeLayer w traceId None) = None.
Proof.
  intros w traceId base.
  repeat split.
  cbn [getTraceSummary mockSpanTreeLayer TraceSummary.traceUrl
       optTraceUrlBase traceUrlBase truthy nullish].
  destruct (base =? "")%string; reflexivity.
Qed.

(** C7: the summary's [formattedPath] is the names of its [path] joined
    with the separator [" → "]. *)
Theorem formatted_path_is_joined_path :
  forall (w : World) (traceId : string) (options : option Options),
    let summary := getTraceSummary mockSpanTreeLayer w traceId options in
    TraceSummary.formattedPath summary
    = joinWith arrowSeparator (TraceSummary.path summary).
Proof. intros w traceId options summary. reflexivity. Qed.



(** C9: for every trace identifier the mock's [getDeepestPath] is the
    constant sequence root, child1, child2 while [getTraceSpans] and
    [getLeafSpans] are empty; none of the three names is the name of a
    span in the structural view of the same trace. *)
Theorem deepest_path_not_in_structure :
  forall (w : World) (traceId : string),
    getDeepestPath mockSpanTreeLayer w traceId = ["root"; "child1"; "child2"]
    /\ getTraceSpans mockSpanTreeLayer w traceId = []
    /\ getLeafSpans mockSpanTreeLayer w traceId = []
    /\ length (getDeepestPath mockSpanTreeLayer w traceId) = 3%nat
    /\ Forall
         (fun n => ~ In n (map SpanInfo.name
                             (getTraceSpans mockSpanTreeLayer w traceId)))
         (getDeepestPath mockSpanTreeLayer w traceId).
Proof.
  intros w traceId.
  rewrite mock_deepest_path.
  destruct (mock_structure_empty w traceId) as [-> ->].
  repeat split.
  repeat constructor; intros [].
Qed.

(** [`${n}`] tells integral numbers apart. *)
Lemma numberToString_inj :
  forall a b : Z, numberToString a = numberToString b -> a = b.
Proof.
  intros a b H.
  unfold numberToString in H.
  assert (Hnz : forall z, Z.to_int z <> Decimal.Pos Decimal.Nil
                          /\ Z.to_int z <> Decimal.Neg Decimal.Nil).
  { intros [|p|p]; split; simpl; try discriminate;
      intros [= Hp]; exact (DecimalPos.Unsigned.to_uint_nonnil p Hp). }
  apply DecimalZ.to_int_inj.
  destruct (Hnz a) as [Ha1 Ha2], (Hnz b) as [Hb1 Hb2].
  pose proof (NilZero.isi _ Ha1 Ha2) as Ia.
  pose proof (NilZero.isi _ Hb1 Hb2) as Ib.
  rewrite H in Ia. congruence.
Qed.

(** C10: the mock's [getTraceSummary] depends on its arguments only: in
    any two worlds (whatever the clock shows) equal arguments give equal
    summaries.  [getCurrentTraceId] and [getCurrentSpanId] are not so:
    their results change whenever the clock does. *)
Theorem trace_summary_deterministic :
  forall (w1 w2 : World) (traceId : string) (options : option Options),
    getTraceSummary mockSpanTreeLayer w1 traceId options
    = getTraceSummary mockSpanTreeLayer w2 traceId options
    /\ (getCurrentTraceId mockSpanTreeLayer w1
        = getCurrentTraceId mockSpanTreeLayer w2 <-> now w1 = now w2)
    /\ (getCurrentSpanId mockSpanTreeLayer w1
        = getCurrentSpanId mockSpanTreeLayer w2 <-> now w1 = now w2).
Proof.
  intros w1 w2 traceId options.
  split; [reflexivity|].
  split; split; cbn [getCurrentTraceId getCurrentSpanId mockSpanTreeLayer].
  - intros [= H]. now apply numberToString_inj.
  - now intros ->.
  - intros [= H]. now apply numberToString_inj.
  - now intros ->.
Qed.

(* ====================================================================== *)
(** ** The logger combinator *)
(* ====================================================================== *)


(** Returning the result of a [yield*] is the effect itself. *)
Lemma bind_succeed :
  forall (E A : Type) (m : Effect E A) (ctx : option nat) (w : World),
    bind m (fun result => succeed result) ctx w = m ctx w.
Proof.
  intros E A m ctx w. unfold bind, succeed.
  destruct (m ctx w) as [w' [a|e]]; reflexivity.
Qed.

(** With a truthy trace identifier the body is the effect under its
    finalizer. *)
Lemma body_with_trace_id :
  forall (E A : Type) (spanTree : SpanTree) (eff : Effect E A)
         (operationName : string) (options : Options)
         (ctx : option nat) (w : World),
    truthy (getCurrentTraceId spanTree w) = true ->
    withSpanLoggingBody spanTree eff operationName options ctx w
    = ensuring eff
        (finalizer spanTree (nullish (getCurrentTraceId spanTree w) "")
           operationName options) ctx w.
Proof.
  intros E A spanTree eff operationName options ctx w Htruthy.
  unfold withSpanLoggingBody.
  unfold bind at 1. unfold sync at 1.
  rewrite Htruthy.
  apply bind_succeed.
Qed.




(** C8: under the mock, [getCurrentTraceId] and [getCurrentSpanId] return a
    non-null (and non-empty) string in every world, the guard [!traceId] of
    [withSpanLogging] is false, and every run of [withSpanLogging] is the
    run of the wrapped effect under the finalizer; the branch that logs
    "No trace ID" and runs the bare effect is never taken. *)
Theorem mock_never_takes_fallback :
  forall (w : World),
    getCurrentTraceId mockSpanTreeLayer w
    = Some ("trace-" ++ numberToString (now w))
    /\ getCurrentSpanId mockSpanTreeLayer w
       = Some ("span-" ++ numberToString (now w))
    /\ truthy (getCurrentTraceId mockSpanTreeLayer w) = true
    /\ truthy (getCurrentSpanId mockSpanTreeLayer w) = true
    /\ (forall (E A : Type) (eff : Effect E A) (operationName : string)
               (options : Options) (ctx : option nat),
          withSpanLoggingBody mockSpanTreeLayer eff operationName options
            ctx w
          = ensuring eff
              (finalizer mockSpanTreeLayer
                 ("trace-" ++ numberToString (now w)) operationName options)
              ctx w)
    /\ (forall (E A : Type) (eff : Effect E A) (operationName : string)
               (options : option Options) (ctx : option nat),
          withSpanLogging mockSpanTreeLayer eff operationName options ctx w
          = withSpan operationName
              (fun c v =>
                 ensuring eff
                   (finalizer mockSpanTreeLayer
                      ("trace-" ++ numberToString (now v)) operationName
                      (optionsOrEmpty options)) c v) ctx w).
Proof.
  intros w.
  repeat split.
  - intros E A eff operationName options ctx.
    now rewrite body_with_trace_id.
  - intros E A eff operationName options ctx.
    unfold withSpanLogging, withSpan.
    now rewrite body_with_trace_id.
Qed.

(* ====================================================================== *)
(** ** Capacity-based eviction *)
(* ====================================================================== *)

Module StoreFacts.
Import Store.

Lemma olderb_spec :
  forall a b,
    olderb a b = true
    <-> lastActivityAt a < lastActivityAt b
        \/ (lastActivityAt a = lastActivityAt b /\ (id a <= id b)%nat).
Proof.
  intros a b. unfold olderb.
  rewrite orb_true_iff, andb_true_iff, Z.ltb_lt, Z.eqb_eq, Nat.leb_le.
  reflexivity.
Qed.

Lemma olderb_total :
  forall a b, olderb a b = false -> olderb b a = true.
Proof.
  intros a b H. apply olderb_spec.
  destruct (olderb_spec a b) as [_ Hab].
  destruct (Z.lt_trichotomy (lastActivityAt a) (lastActivityAt b))
    as [Hlt | [Heq | Hgt]].
  - rewrite Hab in H by (left; exact Hlt). discriminate.
  - destruct (Nat.le_gt_cases (id a) (id b)) as [Hle | Hlt].
    + rewrite Hab in H by (right; split; assumption). discriminate.
    + right. split; [symmetry; exact Heq | lia].
  - left. lia.
Qed.

Lemma olderb_trans :
  forall a b c, olderb a b = true -> olderb b c = true -> olderb a c = true.
Proof.
  intros a b c Hab Hbc.
  apply olderb_spec in Hab. apply olderb_spec in Hbc. apply olderb_spec.
  lia.
Qed.

Lemma olderb_stamp :
  forall a b, olderb a b = true -> lastActivityAt a <= lastActivityAt b.
Proof. intros a b H. apply olderb_spec in H. lia. Qed.

(** The extracted trace precedes every remaining one in eviction order,
    and nothing else leaves the list. *)
Lemma extractOldest_spec :
  forall ts m rest,
    extractOldest ts = Some (m, rest) ->
    Permutation ts (m :: rest)
    /\ Forall (fun x => olderb m x = true) rest.
Proof.
  induction ts as [|tr ts IH]; intros m rest H; simpl in H.
  - discriminate.
  - destruct (extractOldest ts) as [[m' rest']|] eqn:Hex.
    + destruct (IH m' rest' eq_refl) as [Hperm Hall].
      destruct (olderb tr m') eqn:Hcmp; injection H as <- <-.
      * split; [reflexivity|].
        eapply Permutation_Forall; [symmetry; exact Hperm|].
        constructor; [exact Hcmp|].
        eapply Forall_impl; [|exact Hall].
        intros x Hx. eapply olderb_trans; eassumption.
      * split.
        -- rewrite Hperm. apply perm_swap.
        -- constructor; [now apply olderb_total | exact Hall].
    + injection H as <- <-.
      destruct ts as [|tr' ts'].
      * split; [reflexivity | constructor].
      * simpl in Hex. destruct (extractOldest ts') as [[m2 rest2]|];
          [destruct (olderb tr' m2)|]; discriminate.
Qed.

Lemma extractOldest_none :
  forall ts, extractOldest ts = None -> ts = [].
Proof.
  intros [|tr ts] H; [reflexivity|].
  simpl in H. destruct (extractOldest ts) as [[m rest]|];
    [destruct (olderb tr m)|]; discriminate.
Qed.

Lemma extractOldest_length :
  forall ts m rest,
    extractOldest ts = Some (m, rest) -> length ts = S (length rest).
Proof.
  intros ts m rest H.
  apply extractOldest_spec in H. destruct H as [Hperm _].
  now rewrite (Permutation_length Hperm).
Qed.

Lemma spanTotal_cons :
  forall tr ts, spanTotal (tr :: ts) = (length (spans tr) + spanTotal ts)%nat.
Proof. reflexivity. Qed.

Lemma spanTotal_perm :
  forall ts ts', Permutation ts ts' -> spanTotal ts = spanTotal ts'.
Proof.
  induction 1; rewrite ?spanTotal_cons in *; lia.
Qed.

Lemma hasTrace_perm :
  forall i ts ts', Permutation ts ts' -> hasTrace i ts = hasTrace i ts'.
Proof.
  intros i ts ts' Hperm. unfold hasTrace.
  destruct (existsb _ ts') eqn:H'.
  - apply existsb_exists in H'. destruct H' as (x & Hin & Hx).
    apply existsb_exists. exists x. split; [|exact Hx].
    eapply Permutation_in; [symmetry; exact Hperm | exact Hin].
  - destruct (existsb _ ts) eqn:H; [|reflexivity].
    apply existsb_exists in H. destruct H as (x & Hin & Hx).
    assert (Hex : existsb (fun tr => (id tr =? i)%nat) ts' = true).
    { apply existsb_exists. exists x. split; [|exact Hx].
      eapply Permutation_in; [exact Hperm | exact Hin]. }
    congruence.
Qed.

Lemma room_perm :
  forall cfg i ts ts',
    Permutation ts ts' -> room cfg i ts = room cfg i ts'.
Proof.
  intros cfg i ts ts' Hperm. unfold room.
  now rewrite (spanTotal_perm _ _ Hperm), (Permutation_length Hperm),
    (hasTrace_perm i _ _ Hperm).
Qed.

Lemma Forall_split_perm :
  forall (P : Trace -> Prop) l l1 l2,
    Permutation l (l1 ++ l2) -> Forall P l -> Forall P l1 /\ Forall P l2.
Proof.
  intros P l l1 l2 Hperm Hall.
  apply Forall_app. eapply Permutation_Forall; eassumption.
Qed.

(** The eviction loop, given fuel for every stored trace. *)
Lemma evictLoop_spec :
  forall fits fuel ts,
    (length ts <= fuel)%nat ->
    Permutation ts (fst (evictLoop fuel fits ts)
                      ++ snd (evictLoop fuel fits ts))
    /\ ascending (fst (evictLoop fuel fits ts))
    /\ Forall (fun e => Forall (fun k => olderb e k = true)
                          (snd (evictLoop fuel fits ts)))
         (fst (evictLoop fuel fits ts))
    /\ (fits (snd (evictLoop fuel fits ts)) = true
        \/ snd (evictLoop fuel fits ts) = [])
    /\ (fst (evictLoop fuel fits ts) = [] ->
        snd (evictLoop fuel fits ts) = ts)
    /\ (fits ts = true -> fst (evictLoop fuel fits ts) = [])
    /\ (forall pre v,
          fst (evictLoop fuel fits ts) = (pre ++ [v])%list ->
          exists before,
            Permutation before (v :: snd (evictLoop fuel fits ts))
            /\ fits before = false).
Proof.
  intros fits.
  induction fuel as [|fuel IH]; intros ts Hlen.
  - destruct ts as [|tr ts]; [|simpl in Hlen; lia].
    simpl. repeat split; auto; intros [|x pre] v H; discriminate.
  - simpl. destruct (fits ts) eqn:Hfits.
    + simpl. repeat split; auto; intros [|x pre] v H; discriminate.
    + destruct (extractOldest ts) as [[victim rest]|] eqn:Hex.
      * pose proof (extractOldest_length _ _ _ Hex) as Hl.
        destruct (extractOldest_spec _ _ _ Hex) as [Hperm Hold].
        specialize (IH rest ltac:(lia)).
        destruct (evictLoop fuel fits rest) as [evicted kept].
        simpl in IH |- *.
        destruct IH as (Hp & Hasc & Hcross & Hstop & Hnil & _ & Hlast).
        destruct (Forall_split_perm _ _ _ _ Hp Hold) as [Hev Hkept].
        split; [rewrite Hperm; now constructor|].
        repeat split; auto; try discriminate.
        intros pre v Heq.
        {
          destruct pre as [|x pre]; simpl in Heq.
          - injection Heq as <- Hevicted.
            exists ts. split; [|exact Hfits].
            now rewrite (Hnil Hevicted).
          - injection Heq as <- Hevicted.
            exact (Hlast pre v Hevicted).
        }
      * apply extractOldest_none in Hex. subst ts.
        simpl. repeat split; auto; intros [|x pre] v H; discriminate.
Qed.

Lemma register_spanTotal :
  forall sp clock ts,
    spanTotal (register sp clock ts) = S (spanTotal ts).
Proof.
  intros sp clock. unfold spanTotal.
  induction ts as [|tr ts IH]; simpl.
  - reflexivity.
  - destruct (id tr =? traceId sp)%nat; simpl.
    + rewrite length_app. simpl. lia.
    + rewrite IH. lia.
Qed.

Lemma register_length :
  forall sp clock ts,
    length (register sp clock ts)
    = (length ts + if hasTrace (traceId sp) ts then 0 else 1)%nat.
Proof.
  intros sp clock. induction ts as [|tr ts IH]; simpl.
  - reflexivity.
  - destruct (id tr =? traceId sp)%nat; simpl.
    + lia.
    + rewrite IH. lia.
Qed.

Lemma room_register :
  forall cfg sp clock ts,
    room cfg (traceId sp) ts = true ->
    withinCeilings cfg (register sp clock ts).
Proof.
  intros cfg sp clock ts Hroom.
  unfold room in Hroom. apply andb_true_iff in Hroom.
  destruct Hroom as [Hs Ht].
  apply N.leb_le in Hs. apply N.leb_le in Ht.
  unfold withinCeilings.
  rewrite register_spanTotal, register_length.
  destruct (hasTrace (traceId sp) ts); lia.
Qed.

Lemma withinCeilings_nil : forall cfg, withinCeilings cfg [].
Proof. intros cfg. split; simpl; apply N.le_0_l. Qed.

Lemma evict_stops :
  forall fits ts,
    fits (snd (evict fits ts)) = true \/ snd (evict fits ts) = [].
Proof.
  intros fits ts. unfold evict.
  destruct (evictLoop_spec fits (length ts) ts (le_n _))
    as (_ & _ & _ & Hstop & _).
  exact Hstop.
Qed.

Lemma startSpan_within :
  forall cfg name parentContext clock s,
    withinCeilings cfg
      (traces (fst (startSpan cfg name parentContext clock s))).
Proof.
  intros cfg name parentContext clock s. unfold startSpan.
  set (sp := newSpan s name parentContext clock).
  set (kept := snd (evict (room cfg (traceId sp)) (traces s))).
  destruct (room cfg (traceId sp) kept) eqn:Hroom; simpl.
  - now apply room_register.
  - destruct (evict_stops (room cfg (traceId sp)) (traces s)) as [H | H];
      fold kept in H.
    + congruence.
    + rewrite H. apply withinCeilings_nil.
Qed.

Lemma touchSpan_spans_length :
  forall sid clock f tr,
    length (spans (touchSpan sid clock f tr)) = length (spans tr).
Proof.
  intros sid clock f tr. unfold touchSpan.
  destruct (existsb (targets sid) (spans tr)); simpl.
  - apply length_map.
  - reflexivity.
Qed.

Lemma touchSpan_spanTotal :
  forall sid clock f ts,
    spanTotal (map (touchSpan sid clock f) ts) = spanTotal ts.
Proof.
  intros sid clock f. unfold spanTotal.
  induction ts as [|tr ts IH]; simpl.
  - reflexivity.
  - now rewrite touchSpan_spans_length, IH.
Qed.

Lemma updateSpan_within :
  forall cfg sid clock f s,
    withinCeilings cfg (traces s) ->
    withinCeilings cfg (traces (updateSpan sid clock f s)).
Proof.
  intros cfg sid clock f s [Hs Ht]. unfold updateSpan, withinCeilings.
  simpl. now rewrite length_map, touchSpan_spanTotal.
Qed.

Lemma filter_spanTotal :
  forall keep ts, (spanTotal (filter keep ts) <= spanTotal ts)%nat.
Proof.
  intros keep. unfold spanTotal.
  induction ts as [|tr ts IH]; simpl; [lia|].
  destruct (keep tr); simpl; lia.
Qed.

Lemma sweep_within :
  forall cfg clock s,
    withinCeilings cfg (traces s) ->
    withinCeilings cfg (traces (sweep cfg clock s)).
Proof.
  intros cfg clock s [Hs Ht]. unfold sweep, withinCeilings. simpl.
  set (keep := fun tr => negb (ttl cfg <? clock - lastActivityAt tr)).
  pose proof (filter_length_le keep (traces s)) as Hlen.
  pose proof (filter_spanTotal keep (traces s)) as Htot.
  lia.
Qed.

Lemma step_within :
  forall cfg s s',
    withinCeilings cfg (traces s) -> step cfg s s' ->
    withinCeilings cfg (traces s').
Proof.
  intros cfg s s' Hin Hstep.
  destruct Hstep.
  - apply startSpan_within.
  - now apply updateSpan_within.
  - now apply updateSpan_within.
  - now apply sweep_within.
Qed.

Lemma reachable_within :
  forall cfg s, reachable cfg s -> withinCeilings cfg (traces s).
Proof.
  intros cfg s Hreach.
  induction Hreach as [|s s' _ IH Hstep].
  - apply withinCeilings_nil.
  - eapply step_within; eassumption.
Qed.

Lemma ascending_stamps :
  forall ts,
    ascending ts -> StronglySorted Z.le (map lastActivityAt ts).
Proof.
  induction ts as [|a ts IH]; simpl; intros H.
  - constructor.
  - destruct H as [Hall Hasc].
    constructor; [now apply IH|].
    apply Forall_map.
    eapply Forall_impl; [|exact Hall].
    intros b Hb. now apply olderb_stamp.
Qed.

(** What [startSpan] evicts, for any store. *)
Lemma startSpan_evicts_oldest :
  forall cfg s name parentContext clock,
    let sp := newSpan s name parentContext clock in
    let fits := room cfg (traceId sp) in
    let evicted := fst (evict fits (traces s)) in
    let kept := snd (evict fits (traces s)) in
    let result := startSpan cfg name parentContext clock s in
    Permutation (traces s) (evicted ++ kept)
    /\ ascending evicted
    /\ StronglySorted Z.le (map lastActivityAt evicted)
    /\ (forall e k, In e evicted -> In k kept ->
          lastActivityAt e <= lastActivityAt k)
    /\ (fits (traces s) = true -> evicted = [])
    /\ (forall pre v, evicted = (pre ++ [v])%list ->
          fits (v :: kept) = false)
    /\ (fits kept = true ->
        traces (fst result) = register sp clock kept
        /\ snd result = inl sp)
    /\ (fits kept = false ->
        kept = [] /\ traces (fst result) = []
        /\ snd result = inr CapacityExceeded).
Proof.
  intros cfg s name parentContext clock sp fits evicted kept result.
  destruct (evictLoop_spec fits (length (traces s)) (traces s) (le_n _))
    as (Hperm & Hasc & Hcross & Hstop & _ & Hnone & Hlast).
  fold (evict fits (traces s)) in Hperm, Hasc, Hcross, Hstop, Hnone, Hlast.
  fold evicted in Hperm, Hasc, Hcross, Hnone, Hlast.
  fold kept in Hperm, Hcross, Hstop, Hlast.
  split; [exact Hperm|].
  split; [exact Hasc|].
  split; [now apply ascending_stamps|].
  split.
  { intros e k He Hk. apply olderb_stamp.
    rewrite Forall_forall in Hcross.
    specialize (Hcross e He). rewrite Forall_forall in Hcross.
    now apply Hcross. }
  split; [exact Hnone|].
  split.
  { intros pre v Heq.
    destruct (Hlast pre v Heq) as (before & Hbefore & Hfull).
    unfold fits in *. now rewrite <- (room_perm _ _ _ _ Hbefore). }
  subst result kept evicted fits sp. unfold startSpan. cbv zeta.
  split; intros Hroom; rewrite Hroom; cbn [fst snd traces].
  - split; reflexivity.
  - destruct Hstop as [H | H]; [congruence|].
    rewrite H. repeat split.
Qed.

(** C5: every store that the mutations ([startSpan], [endSpan],
    [annotate], the sweep) produce from the empty store holds at most
    [maxSpans] spans and at most [maxTraces] traces (10,000 and 1,000 by
    default).  When a [startSpan] would exceed a ceiling, whole traces
    are evicted before the span is stored: the evicted traces together
    with the kept ones are the traces stored before, they leave in
    ascending order of [lastActivityAt], none of them is more recently
    active than a trace that is kept, nothing is evicted when the span
    fits, and eviction stops as soon as it fits (with the last evicted
    trace still stored it did not).  The span is then registered in the
    kept traces; when even the empty store has no room the call fails
    with [CapacityExceeded] and stores nothing. *)
Theorem capacity_ceilings_hold :
  forall (cfg : Config) (s : t),
    reachable cfg s ->
    withinCeilings cfg (traces s)
    /\ (maxSpans defaultConfig = 10000 /\ maxTraces defaultConfig = 1000)%N
    /\ (forall s', step cfg s s' -> withinCeilings cfg (traces s'))
    /\ (forall name parentContext clock,
          let sp := newSpan s name parentContext clock in
          let fits := room cfg (traceId sp) in
          let evicted := fst (evict fits (traces s)) in
          let kept := snd (evict fits (traces s)) in
          let result := startSpan cfg name parentContext clock s in
          withinCeilings cfg (traces (fst result))
          /\ Permutation (traces s) (evicted ++ kept)
          /\ ascending evicted
          /\ StronglySorted Z.le (map lastActivityAt evicted)
          /\ (forall e k, In e evicted -> In k kept ->
                lastActivityAt e <= lastActivityAt k)
          /\ (fits (traces s) = true -> evicted = [])
          /\ (forall pre v, evicted = (pre ++ [v])%list ->
                fits (v :: kept) = false)
          /\ (fits kept = true ->
              traces (fst result) = register sp clock kept
              /\ snd result = inl sp)
          /\ (fits kept = false ->
              kept = [] /\ traces (fst result) = []
              /\ snd result = inr CapacityExceeded)).
Proof.
  intros cfg s Hreach.
  pose proof (reachable_within cfg s Hreach) as Hin.
  split; [exact Hin|].
  split; [split; reflexivity|].
  split; [intros s' Hstep; eapply step_within; eassumption|].
  intros name parentContext clock sp fits evicted kept result.
  split; [apply startSpan_within|].
  apply startSpan_evicts_oldest.
Qed.

Example full_store :
  map (fun tr => (id tr, lastActivityAt tr, map spanId (spans tr)))
    (traces store3)
  = [(0%nat, 20, [0%nat; 1%nat]); (1%nat, 30, [2%nat])].
Proof. reflexivity. Qed.

(** A fourth span does not fit: the least recently active trace goes,
    and only that one. *)
Example oldest_trace_evicted :
  map id (fst (evict (room smallConfig 2) (traces store3))) = [0%nat]
  /\ map (fun tr => (id tr, lastActivityAt tr, map spanId (spans tr)))
       (traces (fst (startSpan smallConfig "late" None 40 store3)))
     = [(1%nat, 30, [2%nat]); (2%nat, 40, [3%nat])].
Proof. split; reflexivity. Qed.

Example no_room_at_all :
  snd (startSpan {| ttl := 30000; maxSpans := 0; maxTraces := 1000 |}
         "root" None 10 empty)
  = inr CapacityExceeded.
Proof. reflexivity. Qed.

Lemma store3_reachable : reachable smallConfig store3.
Proof.
  apply (reachable_step smallConfig store2 store3).
  - apply (reachable_step smallConfig store1 store2).
    + apply (reachable_step smallConfig empty store1).
      * apply reachable_empty.
      * exact (step_startSpan smallConfig empty "root" None 10).
    + exact (step_startSpan smallConfig store1 "a" (Some (O, O)) 20).
  - exact (step_startSpan smallConfig store2 "other" None 30).
Defined.

(** The full store of the example and a fourth span. *)
Lemma capacity_ceilings_hold_witness :
  reachable smallConfig store3
  /\ withinCeilings smallConfig (traces store3)
  /\ withinCeilings smallConfig
       (traces (fst (startSpan smallConfig "late" None 40 store3)))
  /\ Permutation (traces store3)
       (fst (evict (room smallConfig 2) (traces store3))
        ++ snd (evict (room smallConfig 2) (traces store3))).
Proof.
  split; [exact store3_reachable|].
  destruct (capacity_ceilings_hold smallConfig store3 store3_reachable)
    as (Hin & _ & _ & Hstart).
  split; [exact Hin|].
  destruct (Hstart "late" None 40) as (Hafter & Hperm & _).
  split; [exact Hafter | exact Hperm].
Defined.

End StoreFacts.

(* ====================================================================== *)
(** ** Tracer calls of composed effects *)
(* ====================================================================== *)

Lemma emits_succeed :
  forall (E A : Type) (a : A) ctx n,
    emits (succeed (E := E) a) ctx n [] n (Success a).
Proof.
  intros E A a ctx n w Hn. cbn. rewrite app_nil_r. auto.
Qed.

Lemma emits_fail :
  forall (E A : Type) (e : E) ctx n,
    emits (fail (A := A) e) ctx n [] n (Failure e).
Proof.
  intros E A e ctx n w Hn. cbn. rewrite app_nil_r. auto.
Qed.

Lemma emits_quiet :
  forall (E : Type) (m : Effect E unit) ctx n,
    quiet m -> emits m ctx n [] n (Success tt).
Proof.
  intros E m ctx n Hquiet w Hn.
  destruct (Hquiet ctx w) as (Hr & Ht & Hs & Ha).
  rewrite app_nil_r. repeat split; congruence.
Qed.

Lemma emits_annotate :
  forall (E : Type) key value span n,
    emits (annotateCurrentSpan (E := E) key value) (Some span) n
      [SpanAttribute span key value] n (Success tt).
Proof.
  intros E key value span n w Hn. cbn. auto.
Qed.

Lemma emits_bind_ok :
  forall (E A B : Type) (m : Effect E A) (k : A -> Effect E B)
         ctx n c1 n1 a c2 n2 r,
    emits m ctx n c1 n1 (Success a) ->
    emits (k a) ctx n1 c2 n2 r ->
    emits (bind m k) ctx n (c1 ++ c2)%list n2 r.
Proof.
  intros E A B m k ctx n c1 n1 a c2 n2 r Hm Hk w Hn.
  destruct (Hm w Hn) as (Hr & Ht & Hs & Ha).
  unfold bind. destruct (m ctx w) as [w1 r1]. cbn [fst snd] in *.
  subst r1.
  destruct (Hk w1 Hs) as (Hr' & Ht' & Hs' & Ha').
  rewrite Hr', Ht', Hs', Ha', Ht, Ha, app_assoc. auto.
Qed.

Lemma emits_bind_fail :
  forall (E A B : Type) (m : Effect E A) (k : A -> Effect E B)
         ctx n c1 n1 e,
    emits m ctx n c1 n1 (Failure e) ->
    emits (bind m k) ctx n c1 n1 (Failure e).
Proof.
  intros E A B m k ctx n c1 n1 e Hm w Hn.
  destruct (Hm w Hn) as (Hr & Ht & Hs & Ha).
  unfold bind. destruct (m ctx w) as [w1 r1]. cbn [fst snd] in *.
  subst r1. auto.
Qed.

Lemma emits_withSpan :
  forall (E A : Type) (name : string) (m : Effect E A) ctx n c n' r,
    emits m (Some n) (S n) c n' r ->
    emits (withSpan name m) ctx n
      (SpanStart n name ctx :: c ++ failureTrace n r ++ [SpanEnd n])%list
      n' r.
Proof.
  intros E A name m ctx n c n' r Hm w Hn.
  unfold withSpan. rewrite Hn.
  assert (Hopen : nextSpan (openSpan name ctx w) = S n)
    by (cbn; now rewrite Hn).
  destruct (Hm _ Hopen) as (Hr & Ht & Hs & Ha).
  destruct (m (Some n) (openSpan name ctx w)) as [w1 r1].
  cbn [fst snd closeSpan tracer nextSpan auditLogs openSpan] in *.
  subst r1. rewrite Ht, Hn, <- !app_assoc. auto.
Qed.

Lemma emits_either :
  forall (E E' A : Type) (m : Effect E A) ctx n c n' r,
    emits m ctx n c n' r ->
    emits (either (E' := E') m) ctx n c n'
      (Success match r with
               | Success a => Right a
               | Failure e => Left e
               end).
Proof.
  intros E E' A m ctx n c n' r Hm w Hn.
  destruct (Hm w Hn) as (Hr & Ht & Hs & Ha).
  unfold either. destruct (m ctx w) as [w1 r1]. cbn [fst snd] in *.
  subst r1. destruct r; auto.
Qed.

Lemma emits_calls :
  forall (E A : Type) (m : Effect E A) ctx n c c' n' r,
    emits m ctx n c n' r -> c = c' -> emits m ctx n c' n' r.
Proof. intros; subst; assumption. Qed.

(** Walks through an effect built from the combinators above; [Hq] is the
    quietness of the runtime. *)
Ltac emits_run Hq :=
  lazymatch goal with
  | |- emits (succeed _) _ _ _ _ _ => apply emits_succeed
  | |- emits (fail _) _ _ _ _ _ => apply emits_fail
  | |- emits (jsonResponse _ _) _ _ _ _ _ => apply emits_succeed
  | |- emits (effectLog _ _ _) _ _ _ _ _ => apply emits_quiet; apply Hq
  | |- emits (effectSleep _ _ _) _ _ _ _ _ => apply emits_quiet; apply Hq
  | |- emits (annotateCurrentSpan _ _) _ _ _ _ _ => apply emits_annotate
  | |- emits (withSpan _ _) _ _ _ _ _ =>
      eapply emits_withSpan; emits_run Hq
  | |- emits (either _) _ _ _ _ _ => eapply emits_either; emits_run Hq
  | |- emits (bind _ _) _ _ _ _ _ =>
      first [ eapply emits_bind_ok; [emits_run Hq | cbv beta iota; emits_run Hq]
            | eapply emits_bind_fail; emits_run Hq ]
  | |- emits (fetchUser _ _) _ _ _ _ _ => unfold fetchUser; emits_run Hq
  | |- emits (sendEmail _) _ _ _ _ _ => unfold sendEmail; emits_run Hq
  | |- emits (formatEmail _) _ _ _ _ _ => unfold formatEmail; emits_run Hq
  | |- emits (loadTemplate _) _ _ _ _ _ => unfold loadTemplate; emits_run Hq
  | |- emits (fetchRecipients _) _ _ _ _ _ =>
      unfold fetchRecipients; emits_run Hq
  | |- emits (validateRecipients _) _ _ _ _ _ =>
      unfold validateRecipients; emits_run Hq
  | |- emits (prepareNotification _) _ _ _ _ _ =>
      unfold prepareNotification; emits_run Hq
  | |- emits (queueNotification _) _ _ _ _ _ =>
      unfold queueNotification; emits_run Hq
  | |- emits (notificationPipeline _) _ _ _ _ _ =>
      unfold notificationPipeline; emits_run Hq
  | |- emits (sendNotifications _) _ _ _ _ _ =>
      unfold sendNotifications; emits_run Hq
  | |- emits _ _ _ _ _ _ => solve [eauto 3 with emits]
  end.

Create HintDb emits.

(** The console runtime is quiet. *)
Lemma consoleRuntime_quiet : quietRuntime consoleRuntime.
Proof.
  intros E. split; intros x ctx w; cbn; auto.
Qed.

(* ====================================================================== *)
(** ** The user service *)
(* ====================================================================== *)

Example digit_strings :
  map matchesDigits ["1"; "007"; "42"; ""; "-1"; "1.5"; " 1"; "1a"; "abc"]
  = [true; true; true; false; false; false; false; false; false].
Proof. reflexivity. Qed.

(** X5: [validateUserId] opens and ends the one span [validate]; it
    returns the identifier when it is a non-empty string of ASCII digits
    and fails with [InvalidUserIdError] carrying the identifier
    otherwise, the failure being recorded on the span as
    [code.stacktrace] before the span ends. *)
Theorem validateUserId_outcome :
  forall (rt : Runtime) (userId : string) (ctx : option nat) (n : nat),
    quietRuntime rt ->
    emits (validateUserId rt userId) ctx n
      (if matchesDigits userId
       then [SpanStart n "validate" ctx; SpanEnd n]
       else [SpanStart n "validate" ctx;
             SpanAttribute n "code.stacktrace" VStackTrace;
             SpanEnd n])
      (S n)
      (if matchesDigits userId then Success userId
       else Failure (InvalidUserIdError userId)).
Proof.
  intros rt userId ctx n Hq.
  unfold validateUserId.
  destruct (matchesDigits userId); cbn [negb];
    (eapply emits_calls; [emits_run Hq | reflexivity]).
Qed.

Lemma prototype_keys_not_digits :
  forall key, In key objectPrototypeKeys -> matchesDigits key = false.
Proof.
  intros key H. unfold objectPrototypeKeys in H.
  repeat (destruct H as [<- | H]; [reflexivity|]).
  destruct H.
Qed.

Lemma mockUsersGet_own :
  forall key user,
    In (key, user) mockUsers ->
    mockUsersGet key = Some (OwnUser user) /\ matchesDigits key = true.
Proof.
  intros key user H. unfold mockUsers in H.
  repeat (destruct H as [[= <- <-] | H]; [split; reflexivity|]).
  destruct H.
Qed.

Lemma mockUsersGet_cases :
  forall key,
    (exists user, In (key, user) mockUsers
                  /\ mockUsersGet key = Some (OwnUser user))
    \/ (In key objectPrototypeKeys
        /\ mockUsersGet key = Some (PrototypeMember key))
    \/ (~ In key (map fst mockUsers) /\ ~ In key objectPrototypeKeys
        /\ mockUsersGet key = None).
Proof.
  intros key. unfold mockUsersGet, mockUsers. cbn [find fst].
  destruct (String.eqb_spec "1" key) as [<- | H1];
    [left; eexists; split; [|reflexivity]; cbn; auto|].
  destruct (String.eqb_spec "2" key) as [<- | H2];
    [left; eexists; split; [|reflexivity]; cbn; auto|].
  destruct (String.eqb_spec "3" key) as [<- | H3];
    [left; eexists; split; [|reflexivity]; cbn; auto|].
  right.
  assert (Htable : ~ In key (map fst mockUsers))
    by (cbn; intros [H | [H | [H | []]]]; congruence).
  destruct (existsb (String.eqb key) objectPrototypeKeys) eqn:Hproto.
  - left. split; [|reflexivity].
    apply existsb_exists in Hproto. destruct Hproto as (k & Hin & Heq).
    apply String.eqb_eq in Heq. now subst k.
  - right. repeat split; [exact Htable|].
    intros Hin.
    assert (existsb (String.eqb key) objectPrototypeKeys = true)
      by (apply existsb_exists; exists key; split;
          [exact Hin | apply String.eqb_refl]).
    congruence.
Qed.

(** A string of digits is never the name of an inherited member. *)
Lemma mockUsersGet_digits :
  forall key,
    matchesDigits key = true ->
    ~ In key (map fst mockUsers) ->
    mockUsersGet key = None.
Proof.
  intros key Hdigits Hnot.
  destruct (mockUsersGet_cases key)
    as [(user & Hin & _) | [(Hproto & _) | (_ & _ & Hnone)]].
  - exfalso. apply Hnot. now apply (in_map fst) in Hin.
  - apply prototype_keys_not_digits in Hproto. congruence.
  - exact Hnone.
Qed.

Lemma validateUserId_accepts :
  forall rt userId ctx n,
    quietRuntime rt ->
    matchesDigits userId = true ->
    emits (validateUserId rt userId) ctx n
      [SpanStart n "validate" ctx; SpanEnd n] (S n) (Success userId).
Proof.
  intros rt userId ctx n Hq Hdigits.
  unfold validateUserId. rewrite Hdigits. cbn [negb].
  eapply emits_calls; [emits_run Hq | reflexivity].
Qed.

Lemma validateUserId_rejects :
  forall rt userId ctx n,
    quietRuntime rt ->
    matchesDigits userId = false ->
    emits (validateUserId rt userId) ctx n
      [SpanStart n "validate" ctx;
       SpanAttribute n "code.stacktrace" VStackTrace;
       SpanEnd n] (S n)
      (Failure (InvalidUserIdError userId)).
Proof.
  intros rt userId ctx n Hq Hdigits.
  unfold validateUserId. rewrite Hdigits. cbn [negb].
  eapply emits_calls; [emits_run Hq | reflexivity].
Qed.

Lemma checkPermissions_runs :
  forall rt userId ctx n,
    quietRuntime rt ->
    emits (checkPermissions rt userId) ctx n
      [SpanStart n "checkPermissions" ctx; SpanEnd n] (S n) (Success true).
Proof.
  intros rt userId ctx n Hq. unfold checkPermissions.
  eapply emits_calls; [emits_run Hq | reflexivity].
Qed.

Lemma queryDatabase_finds :
  forall rt userId stored ctx n,
    quietRuntime rt ->
    mockUsersGet userId = Some stored ->
    emits (queryDatabase rt userId) ctx n
      [SpanStart n "db.query" ctx;
       SpanAttribute n "db.system" (VStr "postgresql");
       SpanAttribute n "db.statement"
         (VStr "SELECT * FROM users WHERE id = $1");
       SpanEnd n] (S n) (Success stored).
Proof.
  intros rt userId stored ctx n Hq Hget.
  unfold queryDatabase. rewrite Hget.
  eapply emits_calls; [emits_run Hq | reflexivity].
Qed.

Lemma queryDatabase_misses :
  forall rt userId ctx n,
    quietRuntime rt ->
    mockUsersGet userId = None ->
    emits (queryDatabase rt userId) ctx n
      [SpanStart n "db.query" ctx;
       SpanAttribute n "db.system" (VStr "postgresql");
       SpanAttribute n "db.statement"
         (VStr "SELECT * FROM users WHERE id = $1");
       SpanAttribute n "code.stacktrace" VStackTrace;
       SpanEnd n] (S n) (Failure (UserNotFoundError userId)).
Proof.
  intros rt userId ctx n Hq Hget.
  unfold queryDatabase. rewrite Hget.
  eapply emits_calls; [emits_run Hq | reflexivity].
Qed.

Lemma transformUser_runs :
  forall (E : Type) rt stored ctx n,
    quietRuntime rt ->
    emits (transformUser (E := E) rt stored) ctx n
      [SpanStart n "transform" ctx; SpanEnd n] (S n)
      (Success (transformed stored)).
Proof.
  intros E rt stored ctx n Hq. unfold transformUser.
  eapply emits_calls; [emits_run Hq | reflexivity].
Qed.

#[local] Hint Resolve validateUserId_accepts validateUserId_rejects
  checkPermissions_runs queryDatabase_finds queryDatabase_misses
  transformUser_runs : emits.

(** X6: an identifier that is not a non-empty digit string stops
    [fetchUser] at validation: it fails with [InvalidUserIdError], and only
    the spans [fetchUser] and [validate] are opened (and ended, each with
    the failure recorded on it as [code.stacktrace]); no permission check,
    database query or transformation runs. *)
Theorem fetchUser_invalid_id :
  forall (rt : Runtime) (userId : string) (ctx : option nat) (n : nat),
    quietRuntime rt ->
    matchesDigits userId = false ->
    emits (fetchUser rt userId) ctx n
      [SpanStart n "fetchUser" ctx;
       SpanStart (1 + n) "validate" (Some n);
       SpanAttribute (1 + n) "code.stacktrace" VStackTrace;
       SpanEnd (1 + n);
       SpanAttribute n "code.stacktrace" VStackTrace;
       SpanEnd n]
      (2 + n) (Failure (InvalidUserIdError userId)).
Proof.
  intros rt userId ctx n Hq Hdigits.
  unfold fetchUser.
  eapply emits_calls; [emits_run Hq | reflexivity].
Qed.

Lemma fetchUser_invalid_id_witness :
  quietRuntime consoleRuntime
  /\ matchesDigits "abc" = false
  /\ snd (fetchUser consoleRuntime "abc" None world0)
     = Failure (InvalidUserIdError "abc")
  /\ spanNames (tracer (fst (fetchUser consoleRuntime "abc" None world0)))
     = ["fetchUser"; "validate"].
Proof.
  split; [exact consoleRuntime_quiet|].
  split; [reflexivity|].
  destruct (fetchUser_invalid_id consoleRuntime "abc" None 0
              consoleRuntime_quiet eq_refl world0 eq_refl)
    as (Hr & Ht & _).
  split; [exact Hr | now rewrite Ht].
Defined.

(** X7: a digit string that is not a key of the table passes validation
    and the permission check and fails in the database query with
    [UserNotFoundError]; the spans [validate], [checkPermissions] and
    [db.query] are siblings under [fetchUser], the query span carries its
    two [db.*] attributes, the failure is recorded as [code.stacktrace] on
    the query span and on [fetchUser] before each ends, and no [transform]
    span is opened. *)
Theorem fetchUser_unknown_user :
  forall (rt : Runtime) (userId : string) (ctx : option nat) (n : nat),
    quietRuntime rt ->
    matchesDigits userId = true ->
    ~ In userId ["1"; "2"; "3"] ->
    emits (fetchUser rt userId) ctx n
      [SpanStart n "fetchUser" ctx;
       SpanStart (1 + n) "validate" (Some n);
       SpanEnd (1 + n);
       SpanStart (2 + n) "checkPermissions" (Some n);
       SpanEnd (2 + n);
       SpanStart (3 + n) "db.query" (Some n);
       SpanAttribute (3 + n) "db.system" (VStr "postgresql");
       SpanAttribute (3 + n) "db.statement"
         (VStr "SELECT * FROM users WHERE id = $1");
       SpanAttribute (3 + n) "code.stacktrace" VStackTrace;
       SpanEnd (3 + n);
       SpanAttribute n "code.stacktrace" VStackTrace;
       SpanEnd n]
      (4 + n) (Failure (UserNotFoundError userId)).
Proof.
  intros rt userId ctx n Hq Hdigits Hnot.
  pose proof (mockUsersGet_digits userId Hdigits Hnot) as Hget.
  unfold fetchUser.
  eapply emits_calls; [emits_run Hq | reflexivity].
Qed.

Lemma fetchUser_unknown_user_witness :
  quietRuntime consoleRuntime
  /\ matchesDigits "01" = true
  /\ ~ In "01" ["1"; "2"; "3"]
  /\ snd (fetchUser consoleRuntime "01" None world0)
     = Failure (UserNotFoundError "01")
  /\ spanNames (tracer (fst (fetchUser consoleRuntime "01" None world0)))
     = ["fetchUser"; "validate"; "checkPermissions"; "db.query"].
Proof.
  assert (Hnot : ~ In "01" ["1"; "2"; "3"])
    by (intros [H | [H | [H | []]]]; discriminate).
  split; [exact consoleRuntime_quiet|].
  split; [reflexivity|].
  split; [exact Hnot|].
  destruct (fetchUser_unknown_user consoleRuntime "01" None 0
              consoleRuntime_quiet eq_refl Hnot world0 eq_refl)
    as (Hr & Ht & _).
  split; [exact Hr | now rewrite Ht].
Defined.

(** X8: for a key of the table, [fetchUser] succeeds with the user's
    fields followed by [displayName], which is the name, a space and the
    e-mail address in angle brackets.  The four steps run one after the
    other: their spans are siblings under [fetchUser], each ended before
    the next starts. *)
Theorem fetchUser_known_user :
  forall (rt : Runtime) (userId : string) (user : User.t)
         (ctx : option nat) (n : nat),
    quietRuntime rt ->
    In (userId, user) mockUsers ->
    emits (fetchUser rt userId) ctx n
      [SpanStart n "fetchUser" ctx;
       SpanStart (1 + n) "validate" (Some n);
       SpanEnd (1 + n);
       SpanStart (2 + n) "checkPermissions" (Some n);
       SpanEnd (2 + n);
       SpanStart (3 + n) "db.query" (Some n);
       SpanAttribute (3 + n) "db.system" (VStr "postgresql");
       SpanAttribute (3 + n) "db.statement"
         (VStr "SELECT * FROM users WHERE id = $1");
       SpanEnd (3 + n);
       SpanStart (4 + n) "transform" (Some n);
       SpanEnd (4 + n);
       SpanEnd n]
      (5 + n)
      (Success
         (JObj [("id", JStr (User.id user));
                ("name", JStr (User.name user));
                ("email", JStr (User.email user));
                ("displayName",
                 JStr (User.name user ++ " <" ++ User.email user ++ ">"))])).
Proof.
  intros rt userId user ctx n Hq Hin.
  destruct (mockUsersGet_own userId user Hin) as [Hget Hdigits].
  unfold fetchUser.
  eapply emits_calls; [emits_run Hq | reflexivity].
Qed.

Lemma fetchUser_known_user_witness :
  quietRuntime consoleRuntime
  /\ In ("2", {| User.id := "2"; User.name := "Bob";
                 User.email := "bob@example.com" |}) mockUsers
  /\ snd (fetchUser consoleRuntime "2" None world0)
     = Success (JObj [("id", JStr "2"); ("name", JStr "Bob");
                      ("email", JStr "bob@example.com");
                      ("displayName", JStr "Bob <bob@example.com>")]).
Proof.
  assert (Hin : In ("2", {| User.id := "2"; User.name := "Bob";
                            User.email := "bob@example.com" |}) mockUsers)
    by (right; left; reflexivity).
  split; [exact consoleRuntime_quiet|].
  split; [exact Hin|].
  destruct (fetchUser_known_user consoleRuntime "2" _ None 0
              consoleRuntime_quiet Hin world0 eq_refl)
    as (Hr & _).
  exact Hr.
Defined.

(** X9: [fetchUser] succeeds exactly for the three keys of the table, and
    what it returns is always built from a user of the table: validation
    comes before the lookup, so a member that the table object inherits
    from [Object.prototype] is never served. *)
Theorem fetchUser_serves_table_users_only :
  forall (rt : Runtime) (userId : string) (ctx : option nat) (w : World),
    quietRuntime rt ->
    ((exists value, snd (fetchUser rt userId ctx w) = Success value)
     <-> In userId ["1"; "2"; "3"])
    /\ (forall value,
          snd (fetchUser rt userId ctx w) = Success value ->
          exists user,
            In (userId, user) mockUsers
            /\ value = transformed (OwnUser user)).
Proof.
  intros rt userId ctx w Hq.
  assert (Hcases :
    (exists user, In (userId, user) mockUsers
       /\ snd (fetchUser rt userId ctx w) = Success (transformed (OwnUser user)))
    \/ (~ In userId (map fst mockUsers)
        /\ exists e, snd (fetchUser rt userId ctx w) = Failure e)).
  { destruct (matchesDigits userId) eqn:Hdigits.
    - destruct (mockUsersGet_cases userId)
        as [(user & Hin & Hget) | [(Hproto & _) | (Hnot & _ & Hget)]].
      + left. exists user. split; [exact Hin|].
        assert (H : exists c n', emits (fetchUser rt userId) ctx (nextSpan w)
                      c n' (Success (transformed (OwnUser user))))
          by (do 2 eexists; emits_run Hq).
        destruct H as (c & n' & H).
        destruct (H w eq_refl) as (Hr & _). exact Hr.
      + apply prototype_keys_not_digits in Hproto. congruence.
      + right. split; [exact Hnot|]. eexists.
        assert (H : exists c n', emits (fetchUser rt userId) ctx (nextSpan w)
                      c n' (Failure (UserNotFoundError userId)))
          by (do 2 eexists; emits_run Hq).
        destruct H as (c & n' & H).
        destruct (H w eq_refl) as (Hr & _). exact Hr.
    - right. split.
      + intros Hin. apply in_map_iff in Hin.
        destruct Hin as ([key user] & Hkey & Hin). cbn in Hkey. subst key.
        destruct (mockUsersGet_own _ _ Hin) as [_ Hd]. congruence.
      + eexists.
        assert (H : exists c n', emits (fetchUser rt userId) ctx (nextSpan w)
                      c n' (Failure (InvalidUserIdError userId)))
          by (do 2 eexists; emits_run Hq).
        destruct H as (c & n' & H).
        destruct (H w eq_refl) as (Hr & _). exact Hr. }
  split; [split|].
  - intros [value Hvalue].
    destruct Hcases as [(user & Hin & _) | (_ & e & He)]; [|congruence].
    now apply (in_map fst) in Hin.
  - intros Hin.
    destruct Hcases as [(user & _ & Hr) | (Hnot & _)];
      [eauto | contradiction].
  - intros value Hvalue.
    destruct Hcases as [(user & Hin & Hr) | (_ & e & He)]; [|congruence].
    exists user. split; [exact Hin | congruence].
Qed.

Lemma fetchUser_serves_table_users_only_witness :
  quietRuntime consoleRuntime
  /\ ((exists value,
         snd (fetchUser consoleRuntime "constructor" None world0)
         = Success value)
      <-> In "constructor" ["1"; "2"; "3"]).
Proof.
  split; [exact consoleRuntime_quiet|].
  exact (proj1 (fetchUser_serves_table_users_only consoleRuntime
                  "constructor" None world0 consoleRuntime_quiet)).
Defined.

(** X10: called on its own with the name of a member that every object
    inherits from [Object.prototype], [queryDatabase] does not fail with
    [UserNotFoundError]: the lookup in the table object finds the
    inherited member, which is truthy, and returns it as the user. *)
Theorem queryDatabase_inherited_member :
  forall (rt : Runtime) (key : string) (ctx : option nat) (n : nat),
    quietRuntime rt ->
    In key objectPrototypeKeys ->
    emits (queryDatabase rt key) ctx n
      [SpanStart n "db.query" ctx;
       SpanAttribute n "db.system" (VStr "postgresql");
       SpanAttribute n "db.statement"
         (VStr "SELECT * FROM users WHERE id = $1");
       SpanEnd n] (S n) (Success (PrototypeMember key)).
Proof.
  intros rt key ctx n Hq Hproto.
  assert (Hget : mockUsersGet key = Some (PrototypeMember key)).
  { destruct (mockUsersGet_cases key)
      as [(user & Hin & _) | [(_ & Hget) | (_ & Hnot & _)]].
    - destruct (mockUsersGet_own _ _ Hin) as [_ Hd].
      apply prototype_keys_not_digits in Hproto. congruence.
    - exact Hget.
    - contradiction. }
  unfold queryDatabase. rewrite Hget.
  eapply emits_calls; [emits_run Hq | reflexivity].
Qed.

Lemma queryDatabase_inherited_member_witness :
  quietRuntime consoleRuntime
  /\ In "toString" objectPrototypeKeys
  /\ snd (queryDatabase consoleRuntime "toString" None world0)
     = Success (PrototypeMember "toString").
Proof.
  assert (Hin : In "toString" objectPrototypeKeys)
    by (unfold objectPrototypeKeys; cbn; tauto).
  split; [exact consoleRuntime_quiet|].
  split; [exact Hin|].
  destruct (queryDatabase_inherited_member consoleRuntime "toString" None 0
              consoleRuntime_quiet Hin world0 eq_refl) as (Hr & _).
  exact Hr.
Defined.

(** X11: whatever the identifier and the outcome, [fetchUser] ends every
    span it opened, innermost first, each span being a child of the span
    open at that moment; and no span is nested deeper than one level below
    [fetchUser]: the longest chain is [fetchUser], [validate]. *)
Theorem fetchUser_spans_are_flat :
  forall (rt : Runtime) (userId : string) (ctx : option nat) (n : nat),
    quietRuntime rt ->
    exists calls n' r,
      emits (fetchUser rt userId) ctx n calls n' r
      /\ nested [] ctx calls
      /\ deepestChain [] [] calls = ["fetchUser"; "validate"].
Proof.
  intros rt userId ctx n Hq.
  destruct (matchesDigits userId) eqn:Hdigits;
    [destruct (mockUsersGet userId) as [stored|] eqn:Hget|];
    do 3 eexists; (split; [emits_run Hq|]);
    cbn; repeat split; reflexivity.
Qed.

Lemma fetchUser_spans_are_flat_witness :
  quietRuntime consoleRuntime
  /\ exists calls n' r,
       emits (fetchUser consoleRuntime "3") (Some 7%nat) 8 calls n' r
       /\ nested [] (Some 7%nat) calls
       /\ deepestChain [] [] calls = ["fetchUser"; "validate"].
Proof.
  split; [exact consoleRuntime_quiet|].
  exact (fetchUser_spans_are_flat consoleRuntime "3" (Some 7%nat) 8
           consoleRuntime_quiet).
Defined.

(* ====================================================================== *)
(** ** The notification service *)
(* ====================================================================== *)

(** X12: [sendNotifications] always succeeds with the same result and
    opens nine spans, each the child of the one before, from
    [notifications] down to [sendEmail]; the attributes [queue.name],
    [template.name] and [email.provider] go to the spans
    [queueNotification], [loadTemplate] and [sendEmail]; the spans end in
    the reverse order. *)
Theorem sendNotifications_chain :
  forall (E : Type) (rt : Runtime) (ctx : option nat) (n : nat),
    quietRuntime rt ->
    emits (sendNotifications (E := E) rt) ctx n
      [SpanStart n "notifications" ctx;
       SpanStart (1 + n) "notificationPipeline" (Some n);
       SpanStart (2 + n) "queueNotification" (Some (1 + n)%nat);
       SpanAttribute (2 + n) "queue.name" (VStr "notifications");
       SpanStart (3 + n) "prepareNotification" (Some (2 + n)%nat);
       SpanStart (4 + n) "validateRecipients" (Some (3 + n)%nat);
       SpanStart (5 + n) "fetchRecipients" (Some (4 + n)%nat);
       SpanStart (6 + n) "loadTemplate" (Some (5 + n)%nat);
       SpanAttribute (6 + n) "template.name" (VStr "user-notification");
       SpanStart (7 + n) "formatEmail" (Some (6 + n)%nat);
       SpanStart (8 + n) "sendEmail" (Some (7 + n)%nat);
       SpanAttribute (8 + n) "email.provider" (VStr "sendgrid");
       SpanEnd (8 + n); SpanEnd (7 + n); SpanEnd (6 + n); SpanEnd (5 + n);
       SpanEnd (4 + n); SpanEnd (3 + n); SpanEnd (2 + n); SpanEnd (1 + n);
       SpanEnd n]
      (9 + n)
      (Success (JObj [("sent", JBool true); ("recipientCount", JNum 5);
                      ("template", JStr "user-notification")])).
Proof.
  intros E rt ctx n Hq.
  eapply emits_calls; [emits_run Hq | reflexivity].
Qed.

Lemma sendNotifications_chain_witness :
  quietRuntime consoleRuntime
  /\ snd (sendNotifications (E := Empty_set) consoleRuntime None world0)
     = Success (JObj [("sent", JBool true); ("recipientCount", JNum 5);
                      ("template", JStr "user-notification")])
  /\ deepestChain [] []
       (tracer (fst (sendNotifications (E := Empty_set) consoleRuntime None
                       world0)))
     = ["notifications"; "notificationPipeline"; "queueNotification";
        "prepareNotification"; "validateRecipients"; "fetchRecipients";
        "loadTemplate"; "formatEmail"; "sendEmail"].
Proof.
  split; [exact consoleRuntime_quiet|].
  destruct (sendNotifications_chain Empty_set consoleRuntime None 0
              consoleRuntime_quiet world0 eq_refl) as (Hr & Ht & _).
  split; [exact Hr | now rewrite Ht].
Defined.

(* ====================================================================== *)
(** ** The route handlers *)
(* ====================================================================== *)

Lemma userRoute_runs :
  forall rt ctx n,
    quietRuntime rt ->
    exists calls,
      emits (userRoute rt) ctx n calls (6 + n)
        (Success
           {| status := 200;
              body := JsonBody
                (JObj [("id", JStr "1"); ("name", JStr "Alice");
                       ("email", JStr "alice@example.com");
                       ("displayName",
                        JStr "Alice <alice@example.com>")]) |})
      /\ spanNames calls
         = ["api.getUser"; "fetchUser"; "validate"; "checkPermissions";
            "db.query"; "transform"]
      /\ nested [] ctx calls
      /\ deepestChain [] [] calls = ["api.getUser"; "fetchUser"; "validate"].
Proof.
  intros rt ctx n Hq.
  assert (Hdigits : matchesDigits "1" = true) by reflexivity.
  assert (Hget : mockUsersGet "1"
                 = Some (OwnUser {| User.id := "1"; User.name := "Alice";
                                    User.email := "alice@example.com" |}))
    by reflexivity.
  eexists. split; [unfold userRoute; cbv zeta; emits_run Hq|].
  lazy. repeat split.
Qed.

(** X13: the handler of [GET /api/users/:id] answers every request with
    status 200 and the transformed user 1 (the identifier is fixed in the
    handler), never with 404.  It opens six spans, and they are three
    levels deep, not six: the four steps of [fetchUser] are siblings. *)
Theorem userRoute_serves_user_one :
  forall (rt : Runtime) (ctx : option nat) (w : World),
    quietRuntime rt ->
    snd (userRoute rt ctx w)
    = Success
        {| status := 200;
           body := JsonBody
             (JObj [("id", JStr "1"); ("name", JStr "Alice");
                    ("email", JStr "alice@example.com");
                    ("displayName", JStr "Alice <alice@example.com>")]) |}
    /\ exists calls,
         tracer (fst (userRoute rt ctx w)) = (tracer w ++ calls)%list
         /\ spanNames calls
            = ["api.getUser"; "fetchUser"; "validate"; "checkPermissions";
               "db.query"; "transform"]
         /\ nested [] ctx calls
         /\ deepestChain [] [] calls
            = ["api.getUser"; "fetchUser"; "validate"].
Proof.
  intros rt ctx w Hq.
  destruct (userRoute_runs rt ctx (nextSpan w) Hq)
    as (calls & Hemits & Hnames & Hnested & Hdeep).
  destruct (Hemits w eq_refl) as (Hr & Ht & _).
  split; [exact Hr|].
  exists calls. auto.
Qed.

Lemma userRoute_serves_user_one_witness :
  quietRuntime consoleRuntime
  /\ snd (userRoute consoleRuntime None world0)
     = Success
         {| status := 200;
            body := JsonBody
              (JObj [("id", JStr "1"); ("name", JStr "Alice");
                     ("email", JStr "alice@example.com");
                     ("displayName", JStr "Alice <alice@example.com>")]) |}.
Proof.
  split; [exact consoleRuntime_quiet|].
  exact (proj1 (userRoute_serves_user_one consoleRuntime None world0
                  consoleRuntime_quiet)).
Defined.

Lemma complexRoute_runs :
  forall rt ctx n,
    quietRuntime rt ->
    exists calls,
      emits (complexRoute rt) ctx n calls (23 + n)
        (Success
           {| status := 200;
              body := JsonBody
                (JObj [("user",
                        JObj [("id", JStr "1"); ("name", JStr "Alice");
                              ("email", JStr "alice@example.com");
                              ("displayName",
                               JStr "Alice <alice@example.com>")]);
                       ("message",
                        JStr "Complex operation completed - check console for span tree output")]) |})
      /\ spanNames calls
         = ["api.complexOperation";
            "fetchUser"; "validate"; "checkPermissions"; "db.query";
            "transform";
            "enrichUser"; "fetchPreferences";
            "analytics"; "calculateMetrics"; "aggregateData";
            "computeStats"; "finalizeMetrics";
            "cacheCheck";
            "notifications"; "notificationPipeline"; "queueNotification";
            "prepareNotification"; "validateRecipients"; "fetchRecipients";
            "loadTemplate"; "formatEmail"; "sendEmail"]
      /\ nested [] ctx calls
      /\ deepestChain [] [] calls
         = ["api.complexOperation";
            "notifications"; "notificationPipeline"; "queueNotification";
            "prepareNotification"; "validateRecipients"; "fetchRecipients";
            "loadTemplate"; "formatEmail"; "sendEmail"].
Proof.
  intros rt ctx n Hq.
  assert (Hdigits : matchesDigits "1" = true) by reflexivity.
  assert (Hget : mockUsersGet "1"
                 = Some (OwnUser {| User.id := "1"; User.name := "Alice";
                                    User.email := "alice@example.com" |}))
    by reflexivity.
  eexists.
  split; [unfold complexRoute, complexOperation; cbv zeta; emits_run Hq|].
  lazy. repeat split.
Qed.

(** X14: the handler of [GET /api/complex/:id] answers with status 200,
    the transformed user 1 and its message, never with 500.  It opens 23
    spans, every one ended innermost first, and the longest chain of
    nested spans is the notification pipeline under the route's span, ten
    spans from [api.complexOperation] to [sendEmail]. *)
Theorem complexRoute_deepest_is_notifications :
  forall (rt : Runtime) (ctx : option nat) (w : World),
    quietRuntime rt ->
    snd (complexRoute rt ctx w)
    = Success
        {| status := 200;
           body := JsonBody
             (JObj [("user",
                     JObj [("id", JStr "1"); ("name", JStr "Alice");
                           ("email", JStr "alice@example.com");
                           ("displayName",
                            JStr "Alice <alice@example.com>")]);
                    ("message",
                     JStr "Complex operation completed - check console for span tree output")]) |}
    /\ exists calls,
         tracer (fst (complexRoute rt ctx w)) = (tracer w ++ calls)%list
         /\ length (spanNames calls) = 23%nat
         /\ nested [] ctx calls
         /\ deepestChain [] [] calls
            = ["api.complexOperation";
               "notifications"; "notificationPipeline"; "queueNotification";
               "prepareNotification"; "validateRecipients";
               "fetchRecipients"; "loadTemplate"; "formatEmail";
               "sendEmail"].
Proof.
  intros rt ctx w Hq.
  destruct (complexRoute_runs rt ctx (nextSpan w) Hq)
    as (calls & Hemits & Hnames & Hnested & Hdeep).
  destruct (Hemits w eq_refl) as (Hr & Ht & _).
  split; [exact Hr|].
  exists calls. rewrite Hnames. auto.
Qed.

Lemma complexRoute_deepest_is_notifications_witness :
  quietRuntime consoleRuntime
  /\ deepestChain [] [] (tracer (fst (complexRoute consoleRuntime None world0)))
     = ["api.complexOperation";
        "notifications"; "notificationPipeline"; "queueNotification";
        "prepareNotification"; "validateRecipients"; "fetchRecipients";
        "loadTemplate"; "formatEmail"; "sendEmail"].
Proof.
  split; [exact consoleRuntime_quiet|].
  destruct (complexRoute_deepest_is_notifications consoleRuntime None world0
              consoleRuntime_quiet)
    as (_ & calls & Ht & _ & _ & Hdeep).
  cbn [tracer world0 app] in Ht. rewrite Ht. exact Hdeep.
Defined.

Lemma handle_runs :
  forall rt loadedAt route ctx w,
    quietRuntime rt ->
    exists response,
      snd (handle rt loadedAt route ctx w) = Success response
      /\ status response = 200
      /\ auditLogs (fst (handle rt loadedAt route ctx w)) = auditLogs w
      /\ (route = RouteAudit ->
          body response = AuditLogsBody (auditLogs w)).
Proof.
  intros rt loadedAt route ctx w Hq.
  destruct route; cbn [handle].
  - eexists. repeat split. discriminate.
  - eexists. repeat split. discriminate.
  - destruct (userRoute_runs rt ctx (nextSpan w) Hq) as (calls & Hemits & _).
    destruct (Hemits w eq_refl) as (Hr & _ & _ & Ha).
    eexists. split; [exact Hr|]. repeat split; [exact Ha | discriminate].
  - destruct (complexRoute_runs rt ctx (nextSpan w) Hq)
      as (calls & Hemits & _).
    destruct (Hemits w eq_refl) as (Hr & _ & _ & Ha).
    eexists. split; [exact Hr|]. repeat split; [exact Ha | discriminate].
  - eexists. repeat split.
Qed.

(** X15: no route handler appends to the audit log (none of them uses
    [withSpanLogging]).  Whatever requests are served, in whatever order,
    every one is answered with status 200, the audit log is left as it
    was, and each [GET /api/audit-logs] answers with the log as it was
    before the first request: the empty array, when the server starts with
    the empty log. *)
Theorem serve_leaves_audit_log :
  forall (rt : Runtime) (loadedAt : string)
         (requests : list (option nat * Route)) (w : World),
    quietRuntime rt ->
    auditLogs (fst (serve rt loadedAt requests w)) = auditLogs w
    /\ length (snd (serve rt loadedAt requests w)) = length requests
    /\ Forall (fun response => status response = 200)
         (snd (serve rt loadedAt requests w))
    /\ (forall i ctx,
          nth_error requests i = Some (ctx, RouteAudit) ->
          nth_error (snd (serve rt loadedAt requests w)) i
          = Some {| status := 200; body := AuditLogsBody (auditLogs w) |}).
Proof.
  intros rt loadedAt requests w Hq. revert w.
  induction requests as [|[ctx route] rest IH]; intros w.
  - cbn. repeat split; [constructor|].
    intros [|i] ctx H; discriminate.
  - cbn [serve].
    destruct (handle_runs rt loadedAt route ctx w Hq)
      as (response & Hr & Hstatus & Ha & Hbody).
    destruct (handle rt loadedAt route ctx w) as [w1 r1].
    cbn [fst snd] in Hr, Ha. subst r1.
    destruct (IH w1) as (IHa & IHlen & IHall & IHnth).
    destruct (serve rt loadedAt rest w1) as [w2 responses].
    cbn [fst snd length] in *.
    split; [congruence|].
    split; [congruence|].
    split; [now constructor|].
    intros [|i] ctx' Hnth; cbn [nth_error] in *.
    + injection Hnth as _ Hroute. specialize (Hbody Hroute).
      destruct response as [st bd]. cbn in *. now subst.
    + rewrite <- Ha. now apply IHnth with (ctx := ctx').
Qed.

Lemma serve_leaves_audit_log_witness :
  quietRuntime consoleRuntime
  /\ map body
       (snd (serve consoleRuntime "2024-01-01T00:00:00.000Z"
               [(None, RouteUser); (None, RouteAudit);
                (None, RouteComplex); (None, RouteAudit)] world0))
     = [JsonBody (JObj [("id", JStr "1"); ("name", JStr "Alice");
                        ("email", JStr "alice@example.com");
                        ("displayName", JStr "Alice <alice@example.com>")]);
        AuditLogsBody [];
        JsonBody
          (JObj [("user",
                  JObj [("id", JStr "1"); ("name", JStr "Alice");
                        ("email", JStr "alice@example.com");
                        ("displayName", JStr "Alice <alice@example.com>")]);
                 ("message",
                  JStr "Complex operation completed - check console for span tree output")]);
        AuditLogsBody []]
  /\ nth_error
       (snd (serve consoleRuntime "2024-01-01T00:00:00.000Z"
               [(None, RouteUser); (None, RouteAudit);
                (None, RouteComplex); (None, RouteAudit)] world0)) 3
     = Some {| status := 200; body := AuditLogsBody [] |}.
Proof.
  split; [exact consoleRuntime_quiet|].
  split; [reflexivity|].
  destruct (serve_leaves_audit_log consoleRuntime "2024-01-01T00:00:00.000Z"
              [(None, RouteUser); (None, RouteAudit);
               (None, RouteComplex); (None, RouteAudit)] world0
              consoleRuntime_quiet) as (_ & _ & _ & Hnth).
  exact (Hnth 3%nat None eq_refl).
Defined.

(* ====================================================================== *)
(** ** More on the logger combinator *)
(* ====================================================================== *)


(** Without a truthy trace identifier the body is the fallback. *)
Lemma body_without_trace_id :
  forall (E A : Type) (spanTree : SpanTree) (eff : Effect E A)
         (operationName : string) (options : Options)
         (ctx : option nat) (w : World),
    truthy (getCurrentTraceId spanTree w) = false ->
    withSpanLoggingBody spanTree eff operationName options ctx w
    = noTraceFallback eff operationName ctx w.
Proof.
  intros E A spanTree eff operationName options ctx w Hfalsy.
  unfold withSpanLoggingBody.
  unfold bind at 1. unfold sync at 1.
  now rewrite Hfalsy.
Qed.

(** X1: when the service reports no trace identifier (null, or the empty
    string), [withSpanLogging] logs one line saying so and runs the
    wrapped effect as it is: the effect's exit is passed on, nothing is
    appended to the audit log, and after the effect the span is only
    ended, with a failure of the effect recorded on it as
    [code.stacktrace] first; no [span_tree.*] attribute is attached. *)
Theorem no_trace_id_fallback :
  forall (E A : Type) (spanTree : SpanTree) (eff : Effect E A)
         (operationName : string) (options : option Options)
         (ctx : option nat) (w : World),
    truthy (getCurrentTraceId spanTree (openSpan operationName ctx w))
    = false ->
    let span := nextSpan w in
    let started :=
      {| now := now w;
         console := (console w
                     ++ [("[" ++ operationName
                          ++ "] No trace ID - SpanTree may not be initialized")%string])%list;
         auditLogs := auditLogs w;
         tracer := (tracer w ++ [SpanStart span operationName ctx])%list;
         nextSpan := S span |} in
    let done := eff (Some span) started in
    let final := withSpanLogging spanTree eff operationName options ctx w in
    snd final = snd done
    /\ tracer (fst final)
       = (tracer (fst done)
          ++ match snd done with
             | Success _ => []
             | Failure _ => [SpanAttribute span "code.stacktrace" VStackTrace]
             end
          ++ [SpanEnd span])%list
    /\ auditLogs (fst final) = auditLogs (fst done)
    /\ console (fst final) = console (fst done).
Proof.
  intros E A spanTree eff operationName options ctx w Hfalsy.
  cbv zeta.
  unfold withSpanLogging, withSpan.
  rewrite body_without_trace_id by exact Hfalsy.
  unfold noTraceFallback, bind, consoleLog.
  cbn [openSpan now console auditLogs tracer nextSpan].
  match goal with
  | |- context [eff ?c ?v] => destruct (eff c v) as [w1 r]
  end.
  cbn [fst snd closeSpan tracer auditLogs console]. unfold failureTrace.
  repeat split.
Qed.

Lemma no_trace_id_fallback_witness :
  truthy (getCurrentTraceId noTraceSpanTree (openSpan "op" None world0))
  = false
  /\ snd (withSpanLogging noTraceSpanTree failingEffect "op" None None world0)
     = Failure "boom"
  /\ tracer (fst (withSpanLogging noTraceSpanTree failingEffect "op" None
                    None world0))
     = [SpanStart 0 "op" None;
        SpanAttribute 0 "code.stacktrace" VStackTrace;
        SpanEnd 0]
  /\ auditLogs (fst (withSpanLogging noTraceSpanTree failingEffect "op" None
                       None world0))
     = []
  /\ console (fst (withSpanLogging noTraceSpanTree failingEffect "op" None
                     None world0))
     = ["[op] No trace ID - SpanTree may not be initialized"; "working"].
Proof.
  split; [reflexivity|].
  exact (no_trace_id_fallback string unit noTraceSpanTree failingEffect "op"
           None None world0 eq_refl).
Defined.

(** X2: for a summary whose depth and span count are safe integers, the
    finalizer prints one block on the console: a rule of sixty [=] signs
    after a line feed, the operation name, the deepest path, the depth and
    the span count in decimal, the trace URL when it is present and not
    empty (the same test as for the span attribute), and a closing
    rule. *)
Theorem finalizer_console_block :
  forall (spanTree : SpanTree) (traceId operationName : string)
         (options : Options) (ctx : option nat) (w : World),
    let summary := finalizerSummary spanTree traceId options w in
    safeInteger (TraceSummary.depth summary) ->
    safeInteger (TraceSummary.spanCount summary) ->
    console (fst (finalizer spanTree traceId operationName options ctx w))
    = (console w
       ++ [(LF ++ repeatString "=" 60)%string;
           ("[" ++ operationName ++ "] Trace completed!")%string;
           ("  Deepest path: " ++ TraceSummary.formattedPath summary)%string;
           ("  Depth: " ++ numberToString (TraceSummary.depth summary)
              ++ " spans")%string;
           ("  Total spans: "
              ++ numberToString (TraceSummary.spanCount summary))%string]
       ++ match TraceSummary.traceUrl summary with
          | Some url =>
              if (url =? "")%string then []
              else [("  Trace URL: " ++ url)%string]
          | None => []
          end
       ++ [(repeatString "=" 60 ++ LF)%string])%list.
Proof.
  intros spanTree traceId operationName options ctx w.
  cbv zeta. intros _ _. unfold finalizer.
  cbv beta iota delta [bind sync].
  generalize (finalizerSummary spanTree traceId options w).
  intros [tid path formatted depth count [url|]];
    cbn [TraceSummary.traceUrl TraceSummary.depth TraceSummary.spanCount
         TraceSummary.formattedPath truthy nullish];
    [destruct (url =? "")%string|];
    destruct ctx; cbn; rewrite <- ?app_assoc; reflexivity.
Qed.

Lemma finalizer_console_block_witness :
  safeInteger
    (TraceSummary.depth
       (finalizerSummary mockSpanTreeLayer "trace-0" (optionsOrEmpty None)
          world0))
  /\ safeInteger
       (TraceSummary.spanCount
          (finalizerSummary mockSpanTreeLayer "trace-0" (optionsOrEmpty None)
             world0))
  /\ console (fst (finalizer mockSpanTreeLayer "trace-0" "api.getUser"
                     (optionsOrEmpty None) (Some 0%nat) world0))
     = [(LF ++ repeatString "=" 60)%string;
        "[api.getUser] Trace completed!";
        "  Deepest path: root → child1 → child2";
        "  Depth: 3 spans";
        "  Total spans: 3";
        "  Trace URL: https://ui.atrim.io/traces/trace-0";
        (repeatString "=" 60 ++ LF)%string].
Proof.
  assert (H3 : safeInteger 3) by (unfold safeInteger; cbn; lia).
  split; [exact H3|].
  split; [exact H3|].
  exact (finalizer_console_block mockSpanTreeLayer "trace-0" "api.getUser"
           (optionsOrEmpty None) (Some 0%nat) world0 H3 H3).
Defined.




Lemma validateUserId_outcome_witness :
  quietRuntime consoleRuntime
  /\ snd (validateUserId consoleRuntime "007" None world0) = Success "007"
  /\ snd (validateUserId consoleRuntime "7 " None world0)
     = Failure (InvalidUserIdError "7 ").
Proof.
  split; [exact consoleRuntime_quiet|].
  split.
  - exact (proj1 (validateUserId_outcome consoleRuntime "007" None 0
                    consoleRuntime_quiet world0 eq_refl)).
  - exact (proj1 (validateUserId_outcome consoleRuntime "7 " None 0
                    consoleRuntime_quiet world0 eq_refl)).
Defined.
